(** * The [Select] combobox of custom-components

    A shallow embedding of the [Select] React component
    (the second module of [src/src/App.jsx]) and the properties of its
    interaction state machine: filtering, keyboard navigation, selection and
    dismissal.

    The component is a function of its props and of three [useState] cells
    ([query], [isOpen], [focusedOptionIndex]).  Each render computes
    [filteredOptions] and creates the event handlers as closures over the
    values of that render; a handler queues state updates (and calls
    [onSelect]); React applies the queued updates, in order, before the next
    render.  The embedding follows this shape: handlers are functions of the
    rendered values and return the list of updates they queue. *)

From Stdlib Require Import Bool List ZArith Lia Ascii String.
Import ListNotations.
Open Scope string_scope.
Open Scope list_scope.

(** ** The JavaScript values and string methods the component uses *)

Module JS.

(** The values that can end up in the [query] cell: a string, or
    [undefined] (what indexing an array out of range yields). *)
Inductive value : Type :=
| undefined
| str (s : string).

(** A computation either returns or throws a [TypeError] (a method looked
    up on [undefined]). *)
Inductive result (A : Type) : Type :=
| Ok (a : A)
| TypeError.
Arguments Ok {A} a.
Arguments TypeError {A}.

Definition bind {A B : Type} (m : result A) (k : A -> result B) : result B :=
  match m with
  | Ok a => k a
  | TypeError => TypeError
  end.

(** [v === w] on these values. *)
Definition strict_eq (v w : value) : bool :=
  match v, w with
  | undefined, undefined => true
  | str s, str t => String.eqb s t
  | _, _ => false
  end.

(** Strings are sequences of code units; the embedding covers the code
    units below 256 (Latin-1), on which [toLowerCase] acts unit by unit:
    A-Z and the accented capitals U+00C0-U+00DE (but not the
    multiplication sign U+00D7) move up by 32.  Beyond Latin-1 the method
    depends on context (the final sigma) and on surrogate pairs; no
    property below relies on [toLowerCase] distributing over
    concatenation. *)
Definition lowerUnit (c : ascii) : ascii :=
  let n := N_of_ascii c in
  if (((65 <=? n) && (n <=? 90)) ||
      ((192 <=? n) && (n <=? 222) && negb (n =? 215)))%N
  then ascii_of_N (n + 32)
  else c.

Fixpoint toLowerCase (s : string) : string :=
  match s with
  | EmptyString => EmptyString
  | String c s' => String (lowerUnit c) (toLowerCase s')
  end.

(** The class [\s] below 256: TAB, LF, VT, FF, CR, SP and NBSP. *)
Definition isWhiteSpace (c : ascii) : bool :=
  let n := N_of_ascii c in
  (((9 <=? n) && (n <=? 13)) || (n =? 32) || (n =? 160))%N.

(** [s.replace(/\s+/g, "")]: every maximal run of white space is replaced
    by the empty string; a unit of the run is dropped as it is met. *)
Fixpoint replaceWhiteSpace (s : string) : string :=
  match s with
  | EmptyString => EmptyString
  | String c s' =>
      if isWhiteSpace c then replaceWhiteSpace s'
      else String c (replaceWhiteSpace s')
  end.

(** [t] occurs in [s] at position 0. *)
Fixpoint startsWith (s t : string) {struct t} : bool :=
  match t, s with
  | EmptyString, _ => true
  | String _ _, EmptyString => false
  | String b t', String a s' => Ascii.eqb a b && startsWith s' t'
  end.

(** [s.includes(t)]: [t] occurs in [s] at some position, tried from the
    left. *)
Fixpoint includes (s t : string) : bool :=
  startsWith s t
  || match s with
     | EmptyString => false
     | String _ s' => includes s' t
     end.

(** [v.toLowerCase()] where [v] may be [undefined]. *)
Definition callToLowerCase (v : value) : result string :=
  match v with
  | str s => Ok (toLowerCase s)
  | undefined => TypeError
  end.

(** [Array.prototype.filter] with a callback that may throw: the callback
    runs on every element from the left, the first throw aborts. *)
Fixpoint filter {A : Type} (cb : A -> result bool) (l : list A)
  : result (list A) :=
  match l with
  | [] => Ok []
  | x :: l' =>
      bind (cb x) (fun keep =>
      bind (filter cb l') (fun r =>
      Ok (if keep then x :: r else r)))
  end.

(** [n !== null] for a number [n]. *)
Definition notNull (n : Z) : bool := true.

(** [a[i]] for an integer [i]. *)
Definition index (a : list string) (i : Z) : value :=
  if (i <? 0)%Z then undefined
  else match nth_error a (Z.to_nat i) with
       | Some s => str s
       | None => undefined
       end.

End JS.

Import JS.

Notation "x <- m ;; k" := (JS.bind m (fun x => k))
  (at level 61, m at next level, right associativity).

(** ** Filtering (App.jsx, [filteredOptions]) *)

(** The test the filter callback applies to one option. *)
Definition matchesQuery (query : value) (opt : string) : result bool :=
  let o := replaceWhiteSpace (toLowerCase opt) in
  q <- callToLowerCase query ;;
  Ok (includes o (replaceWhiteSpace q)).

Definition filteredOptions (options : list string) (query : value)
  : result (list string) :=
  if strict_eq query (str "") then Ok options
  else JS.filter (matchesQuery query) options.

(** *** What the specification says about filtering *)

(** The normalized form of a string: lowercase, white space removed. *)
Definition normalized (s : string) : string :=
  replaceWhiteSpace (toLowerCase s).

(** [t] is a contiguous part of [s]. *)
Definition Contains (s t : string) : Prop :=
  exists pre post : string, s = (pre ++ t ++ post)%string.

(** [r] consists of exactly the elements of [l] that satisfy [P], each as
    often as in [l] and in the order of [l]. *)
Inductive Selection {A : Type} (P : A -> Prop) : list A -> list A -> Prop :=
| Selection_nil : Selection P [] []
| Selection_keep x l r : P x -> Selection P l r -> Selection P (x :: l) (x :: r)
| Selection_drop x l r : ~ P x -> Selection P l r -> Selection P (x :: l) r.

(** The specification's [FilteredOptions(L, q)], as a relation between the
    option list, the query and the filtered list. *)
Definition FilteredOptionsSpec (L : list string) (q : string)
  (R : list string) : Prop :=
  (q = "" -> R = L) /\
  (q <> "" -> Selection (fun o => Contains (normalized o) (normalized q)) L R).

(** ** The component: props, state and queued updates *)

Record Props : Type := {
  options : list string;
  disabled : bool;
  placeholder : string;
  notfound : string
}.

(** The three [useState] cells. *)
Record State : Type := {
  query : value;
  isOpen : bool;
  focusedOptionIndex : Z
}.

(** [useState("")], [useState(false)], [useState(0)]. *)
Definition initialState : State :=
  {| query := str ""; isOpen := false; focusedOptionIndex := 0 |}.

(** What a handler can do: queue an update of a cell (the index also with
    an updater function of the pending value), call the [onSelect] prop, or
    focus the input element. *)
Inductive Update : Type :=
| setQuery (v : value)
| setIsOpen (b : bool)
| setFocusedOptionIndex (f : Z -> Z)
| onSelect (v : value)
| focusInput.

Definition applyUpdate (s : State) (u : Update) : State :=
  match u with
  | setQuery v =>
      {| query := v; isOpen := isOpen s;
         focusedOptionIndex := focusedOptionIndex s |}
  | setIsOpen b =>
      {| query := query s; isOpen := b;
         focusedOptionIndex := focusedOptionIndex s |}
  | setFocusedOptionIndex f =>
      {| query := query s; isOpen := isOpen s;
         focusedOptionIndex := f (focusedOptionIndex s) |}
  | onSelect _ => s
  | focusInput => s
  end.

(** The state of the next render: the queued updates applied in order. *)
Definition commit (s : State) (us : list Update) : State :=
  fold_left applyUpdate us s.

(** The arguments [onSelect] was called with, in order. *)
Fixpoint onSelectCalls (us : list Update) : list value :=
  match us with
  | [] => []
  | onSelect v :: us' => v :: onSelectCalls us'
  | _ :: us' => onSelectCalls us'
  end.

(** Where a click lands. *)
Inductive Target : Type :=
| OnInput
| OnOption (i : nat)
| OnPanel
| Elsewhere.

Definition inputContains (t : Target) : bool :=
  match t with
  | OnInput => true
  | _ => false
  end.

Definition dropdownContains (t : Target) : bool :=
  match t with
  | OnOption _ | OnPanel => true
  | _ => false
  end.

(** ** The handlers of one render *)

Section Handlers.

(** The state the render read, and the [filteredOptions] it computed. *)
Variable s : State.
Variable filtered : list string.

Definition handleToggleDropdown : list Update :=
  setIsOpen (negb (isOpen s))
  :: (if negb (isOpen s) then [focusInput]
      else [setFocusedOptionIndex (fun _ => 0%Z)]).

Definition handleInputChange (value : string) : list Update :=
  (if negb (isOpen s) then handleToggleDropdown else [])
  ++ [setQuery (str value); setFocusedOptionIndex (fun _ => 0%Z)].

Definition handleSelectOption (opt : value) : list Update :=
  [setQuery opt; setIsOpen false; onSelect opt].

Definition clearInput : list Update :=
  [setQuery (str ""); setIsOpen false; setFocusedOptionIndex (fun _ => 0%Z)].

(** The window's click listener.  [inputRef.current] is the input element,
    which is always mounted; [dropdownRef.current] is the panel, which is
    mounted exactly while the dropdown is open.  The listener runs after
    the handlers of the clicked element; these change [isOpen] only on
    clicks inside the input or the panel, for which the test below fails
    whatever [dropdownRef.current] is by then. *)
Definition handleClickOutside (target : Target) : list Update :=
  if true && negb (inputContains target)
     && isOpen s && negb (dropdownContains target)
  then clearInput
  else [].

Definition handleEscapeKey (key : string) : list Update :=
  if String.eqb key "Escape" then clearInput else [].

Definition handleKeyDown (key : string) : list Update :=
  if isOpen s then
    if String.eqb key "ArrowDown"
       && (focusedOptionIndex s <? Z.of_nat (List.length filtered) - 1)%Z
    then [setFocusedOptionIndex (fun prevIndex => (prevIndex + 1)%Z)]
    else if String.eqb key "ArrowUp" && (0 <? focusedOptionIndex s)%Z
    then [setFocusedOptionIndex (fun prevIndex => (prevIndex - 1)%Z)]
    else if String.eqb key "Enter" && notNull (focusedOptionIndex s)
    then handleSelectOption (JS.index filtered (focusedOptionIndex s))
    else []
  else [].

Definition handleOptionClick (index : Z) : list Update :=
  setFocusedOptionIndex (fun _ => index)
  :: handleSelectOption (JS.index filtered index).

End Handlers.

(** ** Rendering *)

(** What the panel shows while the dropdown is open. *)
Inductive Panel : Type :=
| NotFoundText (text : string)
| OptionItems (items : list string) (highlighted : Z).

Record View : Type := {
  inputValue : value;
  inputDisabled : bool;
  computedOptions : list string;
  panel : option Panel
}.

(** The view of a render that computed the filtered list [fo]. *)
Definition viewOf (p : Props) (s : State) (fo : list string) : View :=
  {| inputValue := query s;
     inputDisabled := disabled p;
     computedOptions := fo;
     panel :=
       if isOpen s then
         Some (if Nat.eqb (List.length fo) 0
                  && negb (strict_eq (query s) (str ""))
               then NotFoundText (notfound p)
               else OptionItems fo (focusedOptionIndex s))
       else None |}.

Definition render (p : Props) (s : State) : result View :=
  fo <- filteredOptions (options p) (query s) ;;
  Ok (viewOf p s fo).

(** ** Events *)

Inductive Event : Type :=
| InputChange (value : string)
| InputFocus
| Click (target : Target)
| KeyDown (key : string).

(** Does the rendered panel have an option element with [data-index = i]? *)
Definition hasOption (v : View) (i : nat) : bool :=
  match panel v with
  | Some (OptionItems items _) => Nat.ltb i (List.length items)
  | _ => false
  end.

(** The updates the handlers of the render [v] of state [s] queue on an
    event, or [None] when the view has no element the event could land on.

    The input carries [onChange] and [onClick]; a disabled input receives
    neither.  No handler listens for focus.  Each option element carries
    [onClick]; the window carries [handleClickOutside] for every click and
    [handleEscapeKey] then [handleKeyDown] for every key press (on Escape,
    the only key on which the first queues anything, the second queues
    nothing). *)
Definition dispatch (s : State) (v : View) (e : Event)
  : option (list Update) :=
  match e with
  | InputChange value =>
      Some (if inputDisabled v then [] else handleInputChange s value)
  | InputFocus => Some []
  | Click OnInput =>
      Some ((if inputDisabled v then [] else handleToggleDropdown s)
            ++ handleClickOutside s OnInput)
  | Click (OnOption i) =>
      if hasOption v i
      then Some (handleOptionClick (computedOptions v) (Z.of_nat i)
                 ++ handleClickOutside s (OnOption i))
      else None
  | Click OnPanel =>
      if isOpen s then Some (handleClickOutside s OnPanel) else None
  | Click Elsewhere => Some (handleClickOutside s Elsewhere)
  | KeyDown key =>
      Some (handleEscapeKey key ++ handleKeyDown s (computedOptions v) key)
  end.

(** One event on the mounted component: the next state and the [onSelect]
    calls the event made.  [None] when the render of [s] throws (there is
    then no view and no handler) or the event has no target. *)
Definition step (p : Props) (s : State) (e : Event)
  : option (State * list value) :=
  match render p s with
  | TypeError => None
  | Ok v =>
      match dispatch s v e with
      | None => None
      | Some us => Some (commit s us, onSelectCalls us)
      end
  end.

(** A sequence of events, with all the [onSelect] calls it made. *)
Fixpoint run (p : Props) (s : State) (es : list Event)
  : option (State * list value) :=
  match es with
  | [] => Some (s, [])
  | e :: es' =>
      match step p s e with
      | None => None
      | Some (s', calls) =>
          match run p s' es' with
          | None => None
          | Some (s'', calls') => Some (s'', calls ++ calls')
          end
      end
  end.

(** The states user events can bring the component to. *)
Definition reachable (p : Props) (s : State) : Prop :=
  exists es calls, run p initialState es = Some (s, calls).

(** The invariant of the specification on the highlighted index. *)
Definition indexInRange (filtered : list string) (s : State) : Prop :=
  (0 <= focusedOptionIndex s
   < Z.max 1 (Z.of_nat (List.length filtered)))%Z.

(** ** Instances *)

(** The props a caller gets who passes only [options] (and [onSelect]):
    the defaults of the parameter destructuring. *)
Definition withOptions (opts : list string) : Props :=
  {| options := opts; disabled := false; placeholder := "";
     notfound := "notfound" |}.

Definition withDisabled (p : Props) : Props :=
  {| options := options p; disabled := true; placeholder := placeholder p;
     notfound := notfound p |}.

(** The props the demo page [App] passes. *)
Definition appProps : Props :=
  {| options :=
       ["Alappuzha"; "Ernakulam"; "Kozhikode"; "Palakkad"; "Kollam";
        "Kannur"; "Kasaragod"; "Idukki"; "Kottayam"; "Thrissur";
        "Pathanamthitta"; "Malappuram"; "Wayanad"; "Thiruvananthapuram"];
     disabled := false;
     placeholder := "select a option";
     notfound := "notfound" |}.

(** The highlighted index is a position of the whole option list (or 0). *)
Definition indexWithinOptions (p : Props) (s : State) : Prop :=
  (0 <= focusedOptionIndex s
   < Z.max 1 (Z.of_nat (List.length (options p))))%Z.

(** ** The scroll effect (App.jsx, first [useEffect]) *)

(** [dropdownRef.current.querySelector('[data-index="i"]')] on a mounted
    panel: the option elements carry [data-index] 0, 1, ... in order, the
    notfound text carries none; the result is the position of the element
    found, if any. *)
Definition querySelectorDataIndex (pn : Panel) (i : Z) : option nat :=
  match pn with
  | OptionItems items _ =>
      if (0 <=? i)%Z && (i <? Z.of_nat (List.length items))%Z
      then Some (Z.to_nat i)
      else None
  | NotFoundText _ => None
  end.

(** The body of the effect: the position of the option element it scrolls
    into view, if any.  [dropdownRef.current] is [null] when no panel is
    mounted, and [querySelector] on it would throw. *)
Definition scrollEffectBody (s : State) (v : View) : result (option nat) :=
  if isOpen s && notNull (focusedOptionIndex s) then
    match panel v with
    | None => TypeError
    | Some pn => Ok (querySelectorDataIndex pn (focusedOptionIndex s))
    end
  else Ok None.

(** The dependency array [[isOpen, focusedOptionIndex]]: the effect runs
    after the first render ([prev] is [None]), and after a later render
    only if one of the two differs from its value at the previous
    render. *)
Definition scrollDepsChanged (prev : option State) (s : State) : bool :=
  match prev with
  | None => true
  | Some s0 =>
      negb (Bool.eqb (isOpen s0) (isOpen s))
      || negb (Z.eqb (focusedOptionIndex s0) (focusedOptionIndex s))
  end.

(** The effect after the render [v] of state [s], [prev] being the state of
    the previous render: what it scrolls into view, if anything. *)
Definition scrollEffect (prev : option State) (s : State) (v : View)
  : result (option nat) :=
  if scrollDepsChanged prev s then scrollEffectBody s v else Ok None.

(** ** The window listeners (App.jsx, second [useEffect]) *)

Inductive EventType : Type :=
| click
| keydown.

(** The three functions a render registers.  A render creates them anew, so
    a function is identified by its name and the render that created it. *)
Inductive HandlerName : Type :=
| ClickOutsideFn
| EscapeKeyFn
| KeyDownFn.

Record Listener : Type := {
  onType : EventType;
  fn : HandlerName;
  ofRender : nat
}.

Definition EventType_eqb (a b : EventType) : bool :=
  match a, b with
  | click, click | keydown, keydown => true
  | _, _ => false
  end.

Definition HandlerName_eqb (a b : HandlerName) : bool :=
  match a, b with
  | ClickOutsideFn, ClickOutsideFn
  | EscapeKeyFn, EscapeKeyFn
  | KeyDownFn, KeyDownFn => true
  | _, _ => false
  end.

Definition Listener_eqb (a b : Listener) : bool :=
  EventType_eqb (onType a) (onType b)
  && HandlerName_eqb (fn a) (fn b)
  && Nat.eqb (ofRender a) (ofRender b).

(** [window.addEventListener(type, f)]: appended to the window's list
    unless the same function is already registered for the type. *)
Definition addEventListener (w : list Listener) (l : Listener)
  : list Listener :=
  if existsb (Listener_eqb l) w then w else w ++ [l].

(** [window.removeEventListener(type, f)]. *)
Definition removeEventListener (w : list Listener) (l : Listener)
  : list Listener :=
  List.filter (fun x => negb (Listener_eqb l x)) w.

(** The body of the effect of render [n], and the cleanup it returns. *)
Definition listenersEffect (n : nat) (w : list Listener) : list Listener :=
  let w1 := addEventListener w
              {| onType := click; fn := ClickOutsideFn; ofRender := n |} in
  let w2 := addEventListener w1
              {| onType := keydown; fn := EscapeKeyFn; ofRender := n |} in
  addEventListener w2
    {| onType := keydown; fn := KeyDownFn; ofRender := n |}.

Definition listenersCleanup (n : nat) (w : list Listener) : list Listener :=
  let w1 := removeEventListener w
              {| onType := click; fn := ClickOutsideFn; ofRender := n |} in
  let w2 := removeEventListener w1
              {| onType := keydown; fn := EscapeKeyFn; ofRender := n |} in
  removeEventListener w2
    {| onType := keydown; fn := KeyDownFn; ofRender := n |}.

(** The effect over the life of the component: it runs for the first
    render; whenever a later render changes a dependency, the cleanup of
    the render that ran it last is followed by the effect of the new one.
    [last] is the render whose effect ran last, if any. *)
Fixpoint effectRuns (w : list Listener) (last : option nat)
  (renders : list nat) : list Listener * option nat :=
  match renders with
  | [] => (w, last)
  | n :: rest =>
      let w' := match last with
                | Some m => listenersCleanup m w
                | None => w
                end in
      effectRuns (listenersEffect n w') (Some n) rest
  end.

(** Unmounting runs the cleanup of the last effect. *)
Definition unmount (st : list Listener * option nat) : list Listener :=
  match snd st with
  | Some m => listenersCleanup m (fst st)
  | None => fst st
  end.

(** The listeners the component has registered for render [n]. *)
Definition ownListeners (n : nat) : list Listener :=
  [ {| onType := click; fn := ClickOutsideFn; ofRender := n |};
    {| onType := keydown; fn := EscapeKeyFn; ofRender := n |};
    {| onType := keydown; fn := KeyDownFn; ofRender := n |} ].

(** A listener that is not one of the component's (the window may carry
    listeners of other code). *)
Definition foreign (renders : list nat) (l : Listener) : Prop :=
  ~ In (ofRender l) renders.

(** * Properties *)

(** ** Strings *)

Lemma startsWith_iff (s t : string) :
  startsWith s t = true <-> exists post, s = (t ++ post)%string.
Proof.
  revert s; induction t as [|b t IH]; intros s; simpl.
  - split; [intros _; now exists s | reflexivity].
  - destruct s as [|a s]; simpl.
    + split; [discriminate | intros [post H]; discriminate].
    + rewrite andb_true_iff, Ascii.eqb_eq, IH. split.
      * intros [-> [post ->]]. now exists post.
      * intros [post H]. injection H as -> ->. split; [reflexivity | now exists post].
Qed.

Lemma includes_here (s t : string) :
  startsWith s t = true -> includes s t = true.
Proof. intros H. destruct s; simpl in *; rewrite H; reflexivity. Qed.

Lemma includes_later (a : ascii) (s t : string) :
  includes s t = true -> includes (String a s) t = true.
Proof. intros H. simpl. rewrite H. apply orb_true_r. Qed.

(** [includes] decides [Contains]. *)
Lemma includes_iff (s t : string) :
  includes s t = true <-> Contains s t.
Proof.
  split.
  - induction s as [|a s IH]; simpl; rewrite orb_true_iff; intros [H | H].
    + apply startsWith_iff in H as [post ->]. now exists "", post.
    + discriminate.
    + apply startsWith_iff in H as [post ->]. now exists "", post.
    + destruct (IH H) as (pre & post & ->). now exists (String a pre), post.
  - intros (pre & post & ->). induction pre as [|a pre IH]; simpl append.
    + apply includes_here, startsWith_iff. now exists post.
    + apply includes_later, IH.
Qed.

Lemma strict_eq_empty (q : string) :
  strict_eq (str q) (str "") = true <-> q = "".
Proof. simpl. apply String.eqb_eq. Qed.

(** ** Selections *)

Lemma Selection_filter {A : Type} (P : A -> Prop) (f : A -> bool) :
  (forall x, f x = true <-> P x) ->
  forall l, Selection P l (List.filter f l).
Proof.
  intros Hf l. induction l as [|x l IH]; simpl.
  - constructor.
  - destruct (f x) eqn:E.
    + apply Selection_keep; [now apply Hf | exact IH].
    + apply Selection_drop; [| exact IH].
      intros HP. apply Hf in HP. congruence.
Qed.

Lemma Selection_functional {A : Type} (P : A -> Prop) (l r r' : list A) :
  Selection P l r -> Selection P l r' -> r = r'.
Proof.
  intros H. revert r'.
  induction H as [|x l r HP _ IH|x l r HP _ IH]; intros r' H';
    inversion H'; subst; try contradiction.
  - reflexivity.
  - f_equal. now apply IH.
  - now apply IH.
Qed.

Lemma Selection_In {A : Type} (P : A -> Prop) (l r : list A) :
  Selection P l r -> forall x, In x r <-> In x l /\ P x.
Proof.
  induction 1 as [|y l r HP _ IH|y l r HP _ IH]; intros x; simpl.
  - tauto.
  - rewrite IH. split.
    + intros [-> | [H1 H2]]; auto.
    + intros [[-> | H1] H2]; auto.
  - rewrite IH. split.
    + intros [H1 H2]; auto.
    + intros [[-> | H1] H2]; [contradiction | auto].
Qed.

(** ** Filtering *)

(** With a string as query the filter callback never throws. *)
Lemma filter_string_query (q : string) (L : list string) :
  JS.filter (matchesQuery (str q)) L =
  Ok (List.filter (fun o => includes (normalized o) (normalized q)) L).
Proof.
  induction L as [|x L IH]; simpl.
  - reflexivity.
  - rewrite IH. simpl. unfold normalized.
    now destruct (includes _ _).
Qed.

Lemma filteredOptions_string (L : list string) (q : string) :
  filteredOptions L (str q) =
  Ok (if String.eqb q "" then L
      else List.filter (fun o => includes (normalized o) (normalized q)) L).
Proof.
  unfold filteredOptions. simpl strict_eq.
  destruct (String.eqb q ""); [reflexivity | apply filter_string_query].
Qed.

(** C1. For every option list [L] and every query string [q], the render
    computes a filtered list [R] (it does not throw), and [R] is the list
    the specification describes: [L] itself when [q] is the empty string,
    and otherwise exactly the elements of [L] whose lowercased,
    white-space-free form contains that of [q], in the order of [L].  The
    description determines [R]. *)
Theorem filteredOptions_meets_spec (L : list string) (q : string) :
  exists R,
    filteredOptions L (str q) = Ok R /\
    FilteredOptionsSpec L q R /\
    (forall R', FilteredOptionsSpec L q R' -> R' = R).
Proof.
  rewrite filteredOptions_string.
  destruct (String.eqb q "") eqn:E.
  - apply String.eqb_eq in E. exists L. split; [reflexivity|].
    split.
    + split; [reflexivity | contradiction].
    + intros R' [H _]. now apply H.
  - apply String.eqb_neq in E. eexists. split; [reflexivity|].
    assert (S : Selection (fun o => Contains (normalized o) (normalized q)) L
                  (List.filter
                     (fun o => includes (normalized o) (normalized q)) L)).
    { apply Selection_filter. intros x. apply includes_iff. }
    split.
    + split; [contradiction | intros _; exact S].
    + intros R' [_ H]. eapply Selection_functional; [apply H, E | exact S].
Qed.

(** ** Rendering and stepping *)

Lemma render_filtered (p : Props) (s : State) (fo : list string) :
  filteredOptions (options p) (query s) = Ok fo ->
  render p s = Ok (viewOf p s fo).
Proof. unfold render. intros ->. reflexivity. Qed.

Lemma step_filtered (p : Props) (s : State) (fo : list string) (e : Event) :
  filteredOptions (options p) (query s) = Ok fo ->
  step p s e =
  match dispatch s (viewOf p s fo) e with
  | None => None
  | Some us => Some (commit s us, onSelectCalls us)
  end.
Proof. intros F. unfold step. now rewrite (render_filtered _ _ _ F). Qed.

Lemma step_inv (p : Props) (s : State) (e : Event) (s' : State)
  (calls : list value) :
  step p s e = Some (s', calls) ->
  exists fo us,
    filteredOptions (options p) (query s) = Ok fo /\
    dispatch s (viewOf p s fo) e = Some us /\
    s' = commit s us /\ calls = onSelectCalls us.
Proof.
  unfold step, render.
  destruct (filteredOptions (options p) (query s)) as [fo|]; simpl;
    [|discriminate].
  destruct (dispatch s (viewOf p s fo) e) as [us|] eqn:D; [|discriminate].
  intros [= <- <-]. now exists fo, us.
Qed.

Lemma nonempty_length (A : Type) (l : list A) :
  l <> [] -> Nat.eqb (List.length l) 0 = false.
Proof. destruct l; [congruence | reflexivity]. Qed.

Lemma index_nth (fo : list string) (i : nat) (opt : string) :
  nth_error fo i = Some opt -> JS.index fo (Z.of_nat i) = str opt.
Proof.
  intros H. unfold JS.index.
  destruct (Z.ltb_spec (Z.of_nat i) 0); [lia|].
  now rewrite Nat2Z.id, H.
Qed.

Lemma index_empty (i : Z) : JS.index [] i = undefined.
Proof.
  unfold JS.index. destruct (i <? 0)%Z; [reflexivity|].
  now destruct (Z.to_nat i).
Qed.

(** ** Selection *)

(** C2. In the demo page: open the dropdown, click Kollam (position 4),
    open the dropdown again.  The dropdown is open, the filtered list is
    the non-empty ["Kollam"], and the highlighted index is still 4.
    Pressing Enter does not set [query] to an option's text: [onSelect]
    is called with [undefined], [query] becomes [undefined], and the next
    render throws. *)
Theorem enter_after_reopen_selects_undefined :
  let s := {| query := str "Kollam"; isOpen := true;
              focusedOptionIndex := 4 |} in
  let s' := {| query := undefined; isOpen := false;
               focusedOptionIndex := 4 |} in
  run appProps initialState
    [Click OnInput; Click (OnOption 4); Click OnInput] =
  Some (s, [str "Kollam"]) /\
  filteredOptions (options appProps) (query s) = Ok ["Kollam"] /\
  step appProps s (KeyDown "Enter") = Some (s', [undefined]) /\
  render appProps s' = TypeError.
Proof. repeat split. Qed.

(** X21. In every state in which the component is rendered with the dropdown
    open and the filtered list non-empty: pressing Enter while the
    highlighted index lies within the filtered list (the invariant of the
    specification) commits the option at that index, and clicking the
    option element at any index [i] commits the option at [i].  In both
    cases [query] becomes exactly that option's text, the dropdown closes,
    and [onSelect] is called exactly once, with that text. *)
Theorem selection_commits_option (p : Props) (s : State) (fo : list string) :
  filteredOptions (options p) (query s) = Ok fo ->
  isOpen s = true ->
  fo <> [] ->
  (indexInRange fo s ->
   exists opt,
     nth_error fo (Z.to_nat (focusedOptionIndex s)) = Some opt /\
     step p s (KeyDown "Enter") =
     Some ({| query := str opt; isOpen := false;
              focusedOptionIndex := focusedOptionIndex s |},
           [str opt])) /\
  (forall i,
     (i < List.length fo)%nat ->
     exists opt,
       nth_error fo i = Some opt /\
       step p s (Click (OnOption i)) =
       Some ({| query := str opt; isOpen := false;
                focusedOptionIndex := Z.of_nat i |},
             [str opt])).
Proof.
  intros F O NE. split.
  - intros [Lo Hi].
    assert (Hlen : (0 < Z.of_nat (List.length fo))%Z).
    { destruct fo; [congruence | simpl; lia]. }
    destruct (nth_error fo (Z.to_nat (focusedOptionIndex s))) as [opt|] eqn:N.
    + exists opt. split; [reflexivity|].
      rewrite (step_filtered _ _ _ _ F).
      unfold dispatch, handleEscapeKey, handleKeyDown. simpl.
      rewrite O.
      assert (I : JS.index fo (focusedOptionIndex s) = str opt).
      { rewrite <- (Z2Nat.id (focusedOptionIndex s)) by lia.
        now apply index_nth. }
      rewrite I. reflexivity.
    + apply nth_error_None in N. lia.
  - intros i Hi.
    destruct (nth_error fo i) as [opt|] eqn:N;
      [|apply nth_error_None in N; lia].
    exists opt. split; [reflexivity|].
    rewrite (step_filtered _ _ _ _ F).
    unfold dispatch, hasOption. simpl. rewrite O, (nonempty_length _ _ NE).
    simpl. apply Nat.ltb_lt in Hi. rewrite Hi.
    unfold handleOptionClick, handleClickOutside.
    rewrite (index_nth _ _ _ N). simpl. rewrite andb_false_r. reflexivity.
Qed.

Lemma selection_commits_option_witness :
  let p := withOptions ["Kerala"; "Kochi"; "Kottayam"] in
  let s := {| query := str "ko"; isOpen := true; focusedOptionIndex := 0 |} in
  step p s (KeyDown "Enter") =
  Some ({| query := str "Kochi"; isOpen := false;
           focusedOptionIndex := 0 |}, [str "Kochi"]) /\
  step p s (Click (OnOption 1)) =
  Some ({| query := str "Kottayam"; isOpen := false;
           focusedOptionIndex := 1 |}, [str "Kottayam"]).
Proof.
  intros p s.
  assert (R : indexInRange ["Kochi"; "Kottayam"] s)
    by (unfold indexInRange; simpl; lia).
  destruct (selection_commits_option p s ["Kochi"; "Kottayam"]
              eq_refl eq_refl ltac:(discriminate)) as [E C].
  split.
  - destruct (E R) as [opt [N H]]. simpl in N. injection N as <-. exact H.
  - destruct (C 1%nat ltac:(simpl; lia)) as [opt [N H]].
    simpl in N. injection N as <-. exact H.
Defined.

(** ** The highlighted index after a selection *)

(** C3. Over the options A, B, C: open the dropdown, click the third
    option, open the dropdown again.  The component is then open with
    [query] = "C", the filtered list is ["C"], and the highlighted index is
    still 2, outside the filtered list.  Enter in that state hands
    [undefined] to [onSelect] and stores it in [query], and the next render
    throws. *)
Theorem index_stale_after_selection :
  let p := withOptions ["A"; "B"; "C"] in
  let s := {| query := str "C"; isOpen := true; focusedOptionIndex := 2 |} in
  let s' := {| query := undefined; isOpen := false;
               focusedOptionIndex := 2 |} in
  run p initialState [Click OnInput; Click (OnOption 2); Click OnInput] =
  Some (s, [str "C"]) /\
  filteredOptions (options p) (query s) = Ok ["C"] /\
  ~ indexInRange ["C"] s /\
  step p s (KeyDown "Enter") = Some (s', [undefined]) /\
  render p s' = TypeError.
Proof.
  intros p s s'. split; [reflexivity|]. split; [reflexivity|].
  split; [|split; reflexivity].
  unfold indexInRange. simpl. lia.
Qed.

(** ** Dismissal *)

(** C4. In every state in which the component is rendered with the dropdown
    open, the Escape key and a click outside both the input and the panel
    each close the dropdown and set [query] to the empty string (and the
    highlighted index to 0), and neither calls [onSelect]. *)
Theorem dismissal_clears_query (p : Props) (s : State) (fo : list string) :
  filteredOptions (options p) (query s) = Ok fo ->
  isOpen s = true ->
  step p s (KeyDown "Escape") =
  Some ({| query := str ""; isOpen := false; focusedOptionIndex := 0 |}, [])
  /\
  step p s (Click Elsewhere) =
  Some ({| query := str ""; isOpen := false; focusedOptionIndex := 0 |}, []).
Proof.
  intros F O. unfold step. rewrite (render_filtered _ _ _ F).
  unfold dispatch, handleEscapeKey, handleKeyDown, handleClickOutside.
  simpl. rewrite O. simpl. split; reflexivity.
Qed.

Lemma dismissal_clears_query_witness :
  let s := {| query := str "ko"; isOpen := true; focusedOptionIndex := 1 |} in
  step appProps s (KeyDown "Escape") =
  Some ({| query := str ""; isOpen := false; focusedOptionIndex := 0 |}, [])
  /\
  step appProps s (Click Elsewhere) =
  Some ({| query := str ""; isOpen := false; focusedOptionIndex := 0 |}, []).
Proof.
  intros s.
  exact (dismissal_clears_query appProps s
           ["Kozhikode"; "Kollam"; "Kottayam"] eq_refl eq_refl).
Defined.

(** ** Enter on an empty filtered list *)

(** C5. Over the single option Kerala: open the dropdown and type "xyz".
    The filtered list is empty and the panel shows the [notfound] text.
    Enter then calls [handleSelectOption] with the element at index 0 of
    the empty list: [onSelect] is called with [undefined], the dropdown
    closes and [query] becomes [undefined]; the next render throws. *)
Theorem enter_on_notfound_selects_undefined :
  let p := withOptions ["Kerala"] in
  let s := {| query := str "xyz"; isOpen := true; focusedOptionIndex := 0 |} in
  let s' := {| query := undefined; isOpen := false;
               focusedOptionIndex := 0 |} in
  run p initialState [Click OnInput; InputChange "xyz"] = Some (s, []) /\
  render p s =
  Ok {| inputValue := str "xyz"; inputDisabled := false;
        computedOptions := [];
        panel := Some (NotFoundText "notfound") |} /\
  step p s (KeyDown "Enter") = Some (s', [undefined]) /\
  render p s' = TypeError.
Proof. repeat split. Qed.

(** The same in general: whenever the filtered list is empty while the
    dropdown is open, Enter commits [undefined]. *)
Lemma enter_on_empty_list (p : Props) (s : State) :
  filteredOptions (options p) (query s) = Ok [] ->
  isOpen s = true ->
  step p s (KeyDown "Enter") =
  Some ({| query := undefined; isOpen := false;
           focusedOptionIndex := focusedOptionIndex s |}, [undefined]).
Proof.
  intros F O. unfold step. rewrite (render_filtered _ _ _ F).
  unfold dispatch, handleEscapeKey, handleKeyDown. simpl.
  rewrite O, index_empty. reflexivity.
Qed.

(** ** Where the highlighted index is reset *)

(** C6. Over the options A, B, C: once the dropdown is open, clicking the
    third option closes it (and changes the filtered list) and leaves the
    highlighted index at 2, not 0; clicking the input then opens it with
    the index still 2.  The selection path closes the dropdown without the
    reset that the other closing paths perform. *)
Lemma index_survives_close_and_open :
  let p := withOptions ["A"; "B"; "C"] in
  let s1 := {| query := str ""; isOpen := true; focusedOptionIndex := 0 |} in
  let s2 := {| query := str "C"; isOpen := false; focusedOptionIndex := 2 |} in
  let s3 := {| query := str "C"; isOpen := true; focusedOptionIndex := 2 |} in
  run p initialState [Click OnInput] = Some (s1, []) /\
  step p s1 (Click (OnOption 2)) = Some (s2, [str "C"]) /\
  step p s2 (Click OnInput) = Some (s3, []) /\
  focusedOptionIndex s2 <> 0%Z /\
  focusedOptionIndex s3 <> 0%Z.
Proof. repeat split; discriminate. Qed.

(** X22. In every state in which the component is rendered:
    typing (into the enabled input) opens the dropdown or keeps it open,
    with the typed text as [query] and the highlighted index 0; from an
    open dropdown, Escape, an outside click and a click on the (enabled)
    input each close it with the highlighted index 0; from a closed
    dropdown, a click on the (enabled) input opens it and leaves the
    highlighted index as it was. *)
Theorem index_reset_transitions (p : Props) (s : State) (fo : list string) :
  filteredOptions (options p) (query s) = Ok fo ->
  (disabled p = false ->
   forall value, exists s',
     step p s (InputChange value) = Some (s', []) /\
     query s' = str value /\ isOpen s' = true /\
     focusedOptionIndex s' = 0%Z) /\
  (isOpen s = true ->
   (exists s', step p s (KeyDown "Escape") = Some (s', []) /\
               isOpen s' = false /\ focusedOptionIndex s' = 0%Z) /\
   (exists s', step p s (Click Elsewhere) = Some (s', []) /\
               isOpen s' = false /\ focusedOptionIndex s' = 0%Z)) /\
  (disabled p = false -> isOpen s = true ->
   exists s', step p s (Click OnInput) = Some (s', []) /\
              isOpen s' = false /\ focusedOptionIndex s' = 0%Z) /\
  (disabled p = false -> isOpen s = false ->
   exists s', step p s (Click OnInput) = Some (s', []) /\
              isOpen s' = true /\
              focusedOptionIndex s' = focusedOptionIndex s).
Proof.
  intros F. split; [|split; [|split]].
  - intros D value. rewrite (step_filtered _ _ _ _ F).
    unfold dispatch, handleInputChange, handleToggleDropdown. simpl.
    rewrite D. destruct (isOpen s) eqn:O; simpl; rewrite ?O;
      eexists; (split; [reflexivity|]); simpl; auto.
  - intros O. rewrite !(step_filtered _ _ _ _ F).
    unfold dispatch, handleEscapeKey, handleKeyDown, handleClickOutside.
    simpl. rewrite O. simpl.
    split; eexists; (split; [reflexivity|]); simpl; auto.
  - intros D O. rewrite (step_filtered _ _ _ _ F).
    unfold dispatch, handleClickOutside, handleToggleDropdown.
    simpl. rewrite D, O. simpl.
    eexists; (split; [reflexivity|]); simpl; auto.
  - intros D O. rewrite (step_filtered _ _ _ _ F).
    unfold dispatch, handleClickOutside, handleToggleDropdown.
    simpl. rewrite D, O. simpl.
    eexists; (split; [reflexivity|]); simpl; auto.
Qed.

Lemma index_reset_transitions_witness :
  let p := withOptions ["A"; "B"; "C"] in
  let s := {| query := str "C"; isOpen := false; focusedOptionIndex := 2 |} in
  (exists s', step p s (InputChange "b") = Some (s', []) /\
              query s' = str "b" /\ isOpen s' = true /\
              focusedOptionIndex s' = 0%Z) /\
  (exists s', step p s (Click OnInput) = Some (s', []) /\
              isOpen s' = true /\ focusedOptionIndex s' = 2%Z).
Proof.
  intros p s.
  destruct (index_reset_transitions p s ["C"] eq_refl)
    as [T [_ [_ C]]].
  split; [exact (T eq_refl "b") | exact (C eq_refl eq_refl)].
Defined.

(** ** Arrow keys *)

(** C7. In every state in which the component is rendered with the dropdown
    open, ArrowDown adds 1 to the highlighted index exactly when the index
    is below the last position of the filtered list, ArrowUp subtracts 1
    exactly when the index is above 0, and otherwise each leaves the index
    as it is; neither changes [query] or [isOpen] or calls [onSelect].
    Over the options A, B, C from index 0, two ArrowDowns give index 2 and
    a third keeps it at 2. *)
Theorem arrow_keys_move_index (p : Props) (s : State) (fo : list string) :
  filteredOptions (options p) (query s) = Ok fo ->
  isOpen s = true ->
  step p s (KeyDown "ArrowDown") =
  Some ({| query := query s; isOpen := isOpen s;
           focusedOptionIndex :=
             if (focusedOptionIndex s <? Z.of_nat (List.length fo) - 1)%Z
             then (focusedOptionIndex s + 1)%Z
             else focusedOptionIndex s |}, []) /\
  step p s (KeyDown "ArrowUp") =
  Some ({| query := query s; isOpen := isOpen s;
           focusedOptionIndex :=
             if (0 <? focusedOptionIndex s)%Z
             then (focusedOptionIndex s - 1)%Z
             else focusedOptionIndex s |}, []) /\
  (let abc := withOptions ["A"; "B"; "C"] in
   let s0 := {| query := str ""; isOpen := true; focusedOptionIndex := 0 |} in
   let s2 := {| query := str ""; isOpen := true; focusedOptionIndex := 2 |} in
   run abc s0 [KeyDown "ArrowDown"; KeyDown "ArrowDown"] = Some (s2, []) /\
   run abc s0 [KeyDown "ArrowDown"; KeyDown "ArrowDown"; KeyDown "ArrowDown"]
   = Some (s2, [])).
Proof.
  intros F O. rewrite !(step_filtered _ _ _ _ F).
  unfold dispatch, handleEscapeKey, handleKeyDown. simpl. rewrite O.
  destruct s as [q o i]. simpl in *. subst o. split; [|split].
  - destruct (i <? Z.of_nat (List.length fo) - 1)%Z; reflexivity.
  - destruct (0 <? i)%Z; reflexivity.
  - split; reflexivity.
Qed.

Lemma arrow_keys_move_index_witness :
  let s := {| query := str "k"; isOpen := true; focusedOptionIndex := 1 |} in
  step appProps s (KeyDown "ArrowDown") =
  Some ({| query := str "k"; isOpen := true; focusedOptionIndex := 2 |}, [])
  /\
  step appProps s (KeyDown "ArrowUp") =
  Some ({| query := str "k"; isOpen := true; focusedOptionIndex := 0 |}, []).
Proof.
  intros s.
  destruct (arrow_keys_move_index appProps s
              ["Ernakulam"; "Kozhikode"; "Palakkad"; "Kollam"; "Kannur";
               "Kasaragod"; "Idukki"; "Kottayam"]
              eq_refl eq_refl) as [D [U _]].
  split; [exact D | exact U].
Defined.

(** ** The disabled input *)

Lemma closed_disabled_step (p : Props) (s : State) (e : Event) (s' : State)
  (calls : list value) :
  disabled p = true ->
  isOpen s = false ->
  step p s e = Some (s', calls) ->
  isOpen s' = false /\ calls = [].
Proof.
  intros D O H.
  destruct (step_inv _ _ _ _ _ H) as (fo & us & _ & Hd & -> & ->).
  destruct e as [value| |[|i| |]|key]; simpl in Hd;
    unfold hasOption, handleClickOutside in Hd; simpl in Hd;
    rewrite ?D, ?O in Hd; simpl in Hd; try discriminate;
    try (injection Hd as <-; simpl; auto).
  unfold handleEscapeKey, handleKeyDown. rewrite O.
  destruct (String.eqb key "Escape"); simpl; auto.
Qed.

Lemma closed_disabled_run (p : Props) (es : list Event) (s s' : State)
  (calls : list value) :
  disabled p = true ->
  isOpen s = false ->
  run p s es = Some (s', calls) ->
  isOpen s' = false /\ calls = [].
Proof.
  intros D. revert s calls.
  induction es as [|e es IH]; intros s calls O H; simpl in H.
  - injection H as <- <-. auto.
  - destruct (step p s e) as [[s1 c1]|] eqn:E; [|discriminate].
    destruct (run p s1 es) as [[s2 c2]|] eqn:R; [|discriminate].
    injection H as <- <-.
    destruct (closed_disabled_step _ _ _ _ _ D O E) as [O1 ->].
    destruct (IH _ _ O1 R) as [O2 ->]. auto.
Qed.

(** C9. With [disabled] true and the dropdown closed, no event (typing,
    focus, a click anywhere, a key press) opens the dropdown, and so no
    sequence of events does; [onSelect] is never called. *)
Theorem disabled_never_opens (p : Props) (s : State) :
  disabled p = true ->
  isOpen s = false ->
  (forall e s' calls,
      step p s e = Some (s', calls) -> isOpen s' = false /\ calls = []) /\
  (forall es s' calls,
      run p s es = Some (s', calls) -> isOpen s' = false /\ calls = []).
Proof.
  intros D O. split.
  - intros e s' calls. now apply closed_disabled_step.
  - intros es s' calls. now apply closed_disabled_run.
Qed.

Lemma disabled_never_opens_witness :
  let p := withDisabled appProps in
  step p initialState (Click OnInput) = Some (initialState, []) /\
  run p initialState
    [Click OnInput; InputFocus; InputChange "k"; KeyDown "ArrowDown";
     KeyDown "Enter"; Click Elsewhere] = Some (initialState, []) /\
  isOpen initialState = false.
Proof.
  intros p.
  destruct (disabled_never_opens p initialState eq_refl eq_refl) as [S R].
  split; [reflexivity|]. split; [reflexivity|].
  exact (proj1 (S (Click OnInput) initialState [] eq_refl)).
Defined.

(** An open dropdown is never reached with a disabled input. *)
Lemma reachable_open_enabled (p : Props) (s : State) :
  reachable p s -> isOpen s = true -> disabled p = false.
Proof.
  intros (es & calls & R) O. destruct (disabled p) eqn:D; [|reflexivity].
  destruct (closed_disabled_run p es initialState s calls D eq_refl R).
  congruence.
Qed.

(** ** Clicking the input *)

(** C8. In every state in which the component is rendered with the dropdown
    open, and which is reachable or has its input enabled (a disabled input
    receives no click, and no reachable open state has one), clicking the
    input closes the dropdown and sets the highlighted index to 0 while
    [query] stays as it is, whereas Escape sets [query] to the empty
    string; [onSelect] is not called. *)
Theorem input_click_closes_keeping_query (p : Props) (s : State)
  (fo : list string) :
  filteredOptions (options p) (query s) = Ok fo ->
  disabled p = false \/ reachable p s ->
  isOpen s = true ->
  step p s (Click OnInput) =
  Some ({| query := query s; isOpen := false; focusedOptionIndex := 0 |}, [])
  /\
  step p s (KeyDown "Escape") =
  Some ({| query := str ""; isOpen := false; focusedOptionIndex := 0 |}, []).
Proof.
  intros F DR O.
  assert (D : disabled p = false).
  { destruct DR as [D | R]; [exact D | now apply (reachable_open_enabled p s)]. }
  rewrite !(step_filtered _ _ _ _ F).
  unfold dispatch, handleToggleDropdown, handleClickOutside,
    handleEscapeKey, handleKeyDown.
  simpl. rewrite D, O. split; reflexivity.
Qed.

Lemma input_click_closes_keeping_query_witness :
  let s := {| query := str "tt"; isOpen := true; focusedOptionIndex := 1 |} in
  step appProps s (Click OnInput) =
  Some ({| query := str "tt"; isOpen := false; focusedOptionIndex := 0 |}, [])
  /\
  step appProps s (KeyDown "Escape") =
  Some ({| query := str ""; isOpen := false; focusedOptionIndex := 0 |}, []).
Proof.
  intros s.
  exact (input_click_closes_keeping_query appProps s
           ["Kottayam"; "Pathanamthitta"] eq_refl (or_introl eq_refl)
           eq_refl).
Defined.

(** ** Typing into a closed dropdown *)

(** C10. In every state in which the component is rendered with the
    dropdown closed and the input enabled, a change of the input text opens
    the dropdown, sets [query] to the new text and the highlighted index to
    0; [onSelect] is not called. *)
Theorem typing_opens_closed_dropdown (p : Props) (s : State)
  (fo : list string) (value : string) :
  filteredOptions (options p) (query s) = Ok fo ->
  disabled p = false ->
  isOpen s = false ->
  step p s (InputChange value) =
  Some ({| query := str value; isOpen := true; focusedOptionIndex := 0 |}, []).
Proof.
  intros F D O. rewrite (step_filtered _ _ _ _ F).
  unfold dispatch, handleInputChange, handleToggleDropdown.
  simpl. rewrite D, O. reflexivity.
Qed.

Lemma typing_opens_closed_dropdown_witness :
  step appProps initialState (InputChange "ko") =
  Some ({| query := str "ko"; isOpen := true; focusedOptionIndex := 0 |}, []).
Proof.
  exact (typing_opens_closed_dropdown appProps initialState
           (options appProps) "ko" eq_refl eq_refl eq_refl).
Defined.

(** ** The index invariant away from selections *)

Lemma filtered_same_query (p : Props) (s s' : State) (fo fo' : list string) :
  query s' = query s ->
  filteredOptions (options p) (query s) = Ok fo ->
  filteredOptions (options p) (query s') = Ok fo' ->
  fo' = fo.
Proof. intros -> F F'. congruence. Qed.

Lemma indexInRange_zero (fo : list string) (q : value) (o : bool) :
  indexInRange fo {| query := q; isOpen := o; focusedOptionIndex := 0 |}.
Proof. unfold indexInRange. simpl. lia. Qed.

(** An event that does not call [onSelect] keeps the highlighted index
    within the filtered list. *)
Lemma indexInRange_step (p : Props) (s s' : State) (e : Event)
  (fo fo' : list string) :
  filteredOptions (options p) (query s) = Ok fo ->
  indexInRange fo s ->
  step p s e = Some (s', []) ->
  filteredOptions (options p) (query s') = Ok fo' ->
  indexInRange fo' s'.
Proof.
  intros F I H F'. rewrite (step_filtered _ _ _ _ F) in H.
  assert (Same : forall us, commit s us = s' -> us = [] -> indexInRange fo' s').
  { intros us <- ->. simpl in F'. now rewrite (filtered_same_query p s s fo fo'). }
  destruct s as [q o i]. unfold indexInRange in I. simpl in I, F.
  destruct e as [value| |[|n| |]|key]; simpl in H.
  - destruct (disabled p); [injection H as <-; now apply (Same [])|].
    unfold handleInputChange, handleToggleDropdown in H. simpl in H.
    destruct o; simpl in H; injection H as <-; apply indexInRange_zero.
  - injection H as <-. now apply (Same []).
  - unfold handleClickOutside, handleToggleDropdown in H. simpl in H.
    destruct (disabled p); simpl in H; [injection H as <-; now apply (Same [])|].
    destruct o; simpl in H; injection H as <-; [apply indexInRange_zero|].
    simpl in F'. assert (fo' = fo) by congruence. subst fo'. exact I.
  - destruct (hasOption _ n); discriminate.
  - unfold handleClickOutside in H. simpl in H.
    destruct o; [|discriminate]. simpl in H.
    injection H as <-. now apply (Same []).
  - unfold handleClickOutside in H. simpl in H.
    destruct o; simpl in H; injection H as <-;
      [apply indexInRange_zero | now apply (Same [])].
  - unfold handleEscapeKey, handleKeyDown in H. simpl in H.
    destruct (String.eqb key "Escape") eqn:Esc.
    + apply String.eqb_eq in Esc. subst key. simpl in H.
      destruct o; simpl in H; injection H as <-; apply indexInRange_zero.
    + simpl in H. destruct o; [|injection H as <-; now apply (Same [])].
      destruct (String.eqb key "ArrowDown"
                && (i <? Z.of_nat (List.length fo) - 1)%Z) eqn:Down.
      { apply andb_true_iff in Down as [_ Down]. apply Z.ltb_lt in Down.
        simpl in H. injection H as <-. simpl in F'.
        assert (fo' = fo) by congruence. subst fo'.
        unfold indexInRange. simpl. lia. }
      destruct (String.eqb key "ArrowUp" && (0 <? i)%Z) eqn:Up.
      { apply andb_true_iff in Up as [_ Up]. apply Z.ltb_lt in Up.
        simpl in H. injection H as <-. simpl in F'.
        assert (fo' = fo) by congruence. subst fo'.
        unfold indexInRange. simpl. lia. }
      destruct (String.eqb key "Enter"); [discriminate|].
      injection H as <-. now apply (Same []).
Qed.

Lemma run_rendered (p : Props) (es : list Event) (s s' : State)
  (calls : list value) (fo' : list string) :
  run p s es = Some (s', calls) ->
  filteredOptions (options p) (query s') = Ok fo' ->
  exists fo, filteredOptions (options p) (query s) = Ok fo.
Proof.
  destruct es as [|e es]; simpl.
  - intros [= <- <-] F. now exists fo'.
  - destruct (step p s e) as [[s1 c1]|] eqn:E; [|discriminate].
    intros _ _. destruct (step_inv _ _ _ _ _ E) as (fo & _ & F & _).
    now exists fo.
Qed.

Lemma indexInRange_run (p : Props) (es : list Event) (s s' : State)
  (fo fo' : list string) :
  filteredOptions (options p) (query s) = Ok fo ->
  indexInRange fo s ->
  run p s es = Some (s', []) ->
  filteredOptions (options p) (query s') = Ok fo' ->
  indexInRange fo' s'.
Proof.
  revert s fo. induction es as [|e es IH]; intros s fo F I H F'; simpl in H.
  - injection H as <-. assert (fo' = fo) by congruence. now subst.
  - destruct (step p s e) as [[s1 c1]|] eqn:E; [|discriminate].
    destruct (run p s1 es) as [[s2 c2]|] eqn:R; [|discriminate].
    injection H as <- H. apply app_eq_nil in H as [-> ->].
    destruct (run_rendered _ _ _ _ _ _ R F') as [fo1 F1].
    apply (IH s1 fo1 F1); [|exact R|exact F'].
    exact (indexInRange_step p s s1 e fo fo1 F I E F1).
Qed.

(** X1. Every state reached from the initial state by events none of which
    called [onSelect] has its highlighted index within
    [0, max(1, length of the filtered list)). *)
Theorem index_in_range_without_selection (p : Props) (es : list Event)
  (s : State) (fo : list string) :
  run p initialState es = Some (s, []) ->
  filteredOptions (options p) (query s) = Ok fo ->
  indexInRange fo s.
Proof.
  intros R F.
  destruct (run_rendered _ _ _ _ _ _ R F) as [fo0 F0].
  apply (indexInRange_run p es initialState s fo0 fo F0); auto.
  apply indexInRange_zero.
Qed.

Lemma index_in_range_without_selection_witness :
  indexInRange ["Kozhikode"; "Kollam"; "Kottayam"]
    {| query := str "ko"; isOpen := true; focusedOptionIndex := 2 |}.
Proof.
  exact (index_in_range_without_selection appProps
           [Click OnInput; InputChange "ko"; KeyDown "ArrowDown";
            KeyDown "ArrowDown"; KeyDown "ArrowDown"]
           _ _ eq_refl eq_refl).
Defined.

(** X2. While the dropdown is open with a non-empty query and an empty
    filtered list, the panel shows the [notfound] text and no option. *)
Theorem notfound_text_shown (p : Props) (s : State) (q : string) :
  query s = str q -> q <> "" ->
  filteredOptions (options p) (query s) = Ok [] ->
  isOpen s = true ->
  exists v, render p s = Ok v /\ panel v = Some (NotFoundText (notfound p)).
Proof.
  intros Q NE F O. eexists. split; [apply (render_filtered _ _ _ F)|].
  simpl. rewrite O, Q. simpl.
  apply String.eqb_neq in NE. now rewrite NE.
Qed.

Lemma notfound_text_shown_witness :
  exists v,
    render (withOptions ["Kerala"])
      {| query := str "xyz"; isOpen := true; focusedOptionIndex := 0 |}
    = Ok v /\
    panel v = Some (NotFoundText "notfound").
Proof.
  exact (notfound_text_shown (withOptions ["Kerala"])
           {| query := str "xyz"; isOpen := true; focusedOptionIndex := 0 |}
           "xyz" eq_refl ltac:(discriminate) eq_refl eq_refl).
Defined.

(** ** The scenarios of the specification *)

Example scenario_kot_enter :
  let p := withOptions ["Kerala"; "Kochi"; "Kottayam"] in
  filteredOptions (options p) (str "kot") = Ok ["Kottayam"] /\
  run p initialState [Click OnInput; InputChange "kot"; KeyDown "Enter"] =
  Some ({| query := str "Kottayam"; isOpen := false;
           focusedOptionIndex := 0 |}, [str "Kottayam"]).
Proof. split; reflexivity. Qed.

Example scenario_outside_click :
  run appProps initialState
    [Click OnInput; InputChange "ko"; Click Elsewhere] =
  Some ({| query := str ""; isOpen := false; focusedOptionIndex := 0 |}, []).
Proof. reflexivity. Qed.

Example scenario_normalization :
  filteredOptions (options appProps) (str " T H ") =
  Ok ["Thrissur"; "Pathanamthitta"; "Thiruvananthapuram"].
Proof. reflexivity. Qed.

(** * Further properties of the code *)

(** ** More on strings *)

Lemma append_empty_r (s : string) : (s ++ "")%string = s.
Proof. induction s as [|a s IH]; simpl; [reflexivity | now rewrite IH]. Qed.

Lemma append_assoc (a b c : string) :
  ((a ++ b) ++ c)%string = (a ++ b ++ c)%string.
Proof. induction a as [|x a IH]; simpl; [reflexivity | now rewrite IH]. Qed.

Lemma Contains_refl (s : string) : Contains s s.
Proof. exists "", "". simpl. now rewrite append_empty_r. Qed.

Lemma Contains_empty (s : string) : Contains s "".
Proof. now exists "", s. Qed.

Lemma Contains_trans (a b c : string) :
  Contains a b -> Contains b c -> Contains a c.
Proof.
  intros (p1 & q1 & ->) (p2 & q2 & ->).
  exists (p1 ++ p2)%string, (q2 ++ q1)%string.
  now rewrite !append_assoc.
Qed.

Lemma Contains_in_empty (t : string) : Contains "" t -> t = "".
Proof.
  intros (pre & post & H). destruct pre; [|discriminate].
  destruct t; [reflexivity | discriminate].
Qed.

(** ** More on lists *)

Lemma filter_all {A : Type} (f : A -> bool) (l : list A) :
  (forall x, In x l -> f x = true) -> List.filter f l = l.
Proof.
  induction l as [|x l IH]; simpl; intros H; [reflexivity|].
  rewrite (H x (or_introl eq_refl)). f_equal. apply IH. auto.
Qed.

Lemma filter_narrow {A : Type} (f g : A -> bool) (l : list A) :
  (forall x, f x = true -> g x = true) ->
  List.filter f (List.filter g l) = List.filter f l.
Proof.
  intros H. induction l as [|x l IH]; simpl; [reflexivity|].
  destruct (g x) eqn:G; simpl.
  - now rewrite IH.
  - destruct (f x) eqn:F; [|exact IH].
    apply H in F. congruence.
Qed.

Lemma filter_length_le {A : Type} (f : A -> bool) (l : list A) :
  (List.length (List.filter f l) <= List.length l)%nat.
Proof.
  induction l as [|x l IH]; simpl; [lia|]. destruct (f x); simpl; lia.
Qed.

Lemma JS_filter_incl {A : Type} (cb : A -> result bool) (l r : list A) :
  JS.filter cb l = Ok r ->
  (forall x, In x r -> In x l) /\ (List.length r <= List.length l)%nat.
Proof.
  revert r. induction l as [|x l IH]; simpl; intros r H.
  - injection H as <-. split; [auto | simpl; lia].
  - destruct (cb x) as [keep|]; simpl in H; [|discriminate].
    destruct (JS.filter cb l) as [r0|]; simpl in H; [|discriminate].
    injection H as <-. destruct (IH r0 eq_refl) as [I L].
    destruct keep; simpl; split; try lia; intros y; simpl; intuition.
Qed.

(** What the filtered list is made of, whatever the query: options of the
    list, no more of them than the list has. *)
Lemma filteredOptions_incl (L : list string) (q : value) (R : list string) :
  filteredOptions L q = Ok R ->
  (forall x, In x R -> In x L) /\ (List.length R <= List.length L)%nat.
Proof.
  unfold filteredOptions. destruct (strict_eq q (str "")).
  - intros [= <-]. split; [auto | lia].
  - apply JS_filter_incl.
Qed.

(** ** The filter at its edges *)

(** X3. A render throws exactly when [query] is [undefined] and there is at
    least one option: the filter callback then calls [toLowerCase] on
    [undefined]; with no option the callback never runs. *)
Theorem render_throws_iff (p : Props) (s : State) :
  render p s = TypeError <-> query s = undefined /\ options p <> [].
Proof.
  unfold render, filteredOptions.
  destruct (query s) as [|q] eqn:Q; simpl.
  - destruct (options p) as [|o os] eqn:E; simpl.
    + split; [discriminate | intros [_ H]; congruence].
    + split; [intros _; split; [reflexivity | discriminate] | reflexivity].
  - destruct (String.eqb q ""); simpl.
    + split; [discriminate | intros [H _]; discriminate].
    + rewrite filter_string_query. simpl.
      split; [discriminate | intros [H _]; discriminate].
Qed.

(** X4. A query that is not empty but normalizes to the empty string (white
    space only) filters nothing out: every option contains the empty
    string. *)
Theorem blank_query_keeps_all (L : list string) (q : string) :
  normalized q = "" -> filteredOptions L (str q) = Ok L.
Proof.
  intros N. rewrite filteredOptions_string.
  destruct (String.eqb q ""); [reflexivity|].
  rewrite N. f_equal. apply filter_all.
  intros x _. apply includes_iff, Contains_empty.
Qed.

Lemma blank_query_keeps_all_witness :
  filteredOptions (options appProps) (str "  ") = Ok (options appProps).
Proof. exact (blank_query_keeps_all (options appProps) "  " eq_refl). Defined.

(** X5. The filtered list depends on the query only through its normalized
    form: two queries that differ in case or white space only give the same
    list. *)
Theorem filteredOptions_normalized_query (L : list string) (q1 q2 : string) :
  normalized q1 = normalized q2 ->
  filteredOptions L (str q1) = filteredOptions L (str q2).
Proof.
  intros N.
  destruct (string_dec (normalized q2) "") as [E|NE].
  - assert (All : forall q, normalized q = "" ->
                  filteredOptions L (str q) = Ok L).
    { intros q B. rewrite filteredOptions_string.
      destruct (String.eqb q ""); [reflexivity|].
      rewrite B. f_equal. apply filter_all.
      intros x _. apply includes_iff, Contains_empty. }
    rewrite (All q2 E). apply All. congruence.
  - rewrite !filteredOptions_string.
    destruct (String.eqb q1 "") eqn:E1;
      [apply String.eqb_eq in E1; subst q1;
       change (normalized "") with "" in N; congruence|].
    destruct (String.eqb q2 "") eqn:E2;
      [apply String.eqb_eq in E2; subst q2;
       change (normalized "") with "" in NE; congruence|].
    now rewrite N.
Qed.

Lemma filteredOptions_normalized_query_witness :
  filteredOptions (options appProps) (str " K o L") =
  filteredOptions (options appProps) (str "kol").
Proof.
  exact (filteredOptions_normalized_query (options appProps)
           " K o L" "kol" eq_refl).
Defined.

(** X6. An option of the list passes the filter when it is itself the
    query: after an option is committed as [query], the filtered list
    contains it (and is not empty). *)
Theorem committed_option_stays_listed (L : list string) (opt : string) :
  In opt L ->
  exists R, filteredOptions L (str opt) = Ok R /\ In opt R.
Proof.
  intros H. rewrite filteredOptions_string. eexists. split; [reflexivity|].
  destruct (String.eqb opt ""); [exact H|].
  apply filter_In. split; [exact H|].
  apply includes_iff, Contains_refl.
Qed.

Lemma committed_option_stays_listed_witness :
  exists R,
    filteredOptions (options appProps) (str "Kollam") = Ok R /\
    In "Kollam" R.
Proof.
  apply (committed_option_stays_listed (options appProps) "Kollam").
  simpl. tauto.
Defined.

(** X7. A query whose normalized form contains the normalized form of
    another query selects from the other's list: if normalized [q2]
    contains normalized [q1], the list for [q2] is what [q2] selects from
    the list for [q1]; it has no option the list for [q1] lacks and is no
    longer. *)
Theorem extending_query_narrows (L : list string) (q1 q2 : string) :
  Contains (normalized q2) (normalized q1) ->
  exists R R',
    filteredOptions L (str q1) = Ok R /\
    filteredOptions L (str q2) = Ok R' /\
    filteredOptions R (str q2) = Ok R' /\
    (forall x, In x R' -> In x R) /\
    (List.length R' <= List.length R)%nat.
Proof.
  intros C.
  destruct (filteredOptions L (str q1)) as [R|] eqn:FR;
    [|rewrite filteredOptions_string in FR; discriminate].
  destruct (filteredOptions L (str q2)) as [R'|] eqn:FR';
    [|rewrite filteredOptions_string in FR'; discriminate].
  exists R, R'. split; [reflexivity|]. split; [reflexivity|].
  assert (Again : filteredOptions R (str q2) = Ok R').
  { rewrite filteredOptions_string in *.
    injection FR as <-. injection FR' as <-. f_equal.
    destruct (String.eqb q2 "") eqn:E'.
    - apply String.eqb_eq in E'. rewrite E' in C.
      change (normalized "") with "" in C.
      apply Contains_in_empty in C.
      destruct (String.eqb q1 ""); [reflexivity|].
      rewrite C. apply filter_all. intros x _.
      apply includes_iff, Contains_empty.
    - destruct (String.eqb q1 ""); [reflexivity|].
      apply filter_narrow. intros x Hx.
      apply includes_iff. apply includes_iff in Hx.
      exact (Contains_trans _ _ _ Hx C). }
  split; [exact Again|].
  exact (filteredOptions_incl R (str q2) R' Again).
Qed.

Lemma extending_query_narrows_witness :
  exists R R',
    filteredOptions (options appProps) (str "ko") = Ok R /\
    filteredOptions (options appProps) (str "Kot") = Ok R' /\
    filteredOptions R (str "Kot") = Ok R' /\
    (forall x, In x R' -> In x R) /\
    (List.length R' <= List.length R)%nat.
Proof.
  apply (extending_query_narrows (options appProps) "ko" "Kot").
  now exists "", "t".
Defined.

(** ** What an event can do *)

Lemma index_In (fo : list string) (i : Z) (opt : string) :
  JS.index fo i = str opt -> In opt fo.
Proof.
  unfold JS.index. destruct (i <? 0)%Z; [discriminate|].
  destruct (nth_error fo (Z.to_nat i)) as [x|] eqn:N; [|discriminate].
  intros [= <-]. exact (nth_error_In _ _ N).
Qed.

Lemma index_undefined_iff (fo : list string) (i : Z) :
  JS.index fo i = undefined <->
  ~ (0 <= i < Z.of_nat (List.length fo))%Z.
Proof.
  unfold JS.index. destruct (Z.ltb_spec i 0).
  - split; [lia | reflexivity].
  - destruct (nth_error fo (Z.to_nat i)) as [x|] eqn:N.
    + assert (Z.to_nat i < List.length fo)%nat
        by (apply nth_error_Some; congruence).
      split; [discriminate | lia].
    + apply nth_error_None in N. split; [lia | reflexivity].
Qed.

Lemma hasOption_open (p : Props) (s : State) (fo : list string) (n : nat) :
  hasOption (viewOf p s fo) n = true ->
  isOpen s = true /\ (n < List.length fo)%nat.
Proof.
  unfold hasOption, viewOf. simpl.
  destruct (isOpen s); [|discriminate].
  destruct (Nat.eqb (List.length fo) 0 && negb (strict_eq (query s) (str "")));
    [discriminate|].
  intros H. apply Nat.ltb_lt in H. auto.
Qed.

(** The shape of every transition: either [onSelect] is not called, and
    then [query] is kept or becomes a string; or an open dropdown is closed
    by Enter or by a click on an option, [onSelect] is called once with the
    element of the filtered list at the index used, and [query] becomes
    that element. *)
Lemma step_shape (p : Props) (s s' : State) (e : Event) (calls : list value)
  (fo : list string) :
  filteredOptions (options p) (query s) = Ok fo ->
  step p s e = Some (s', calls) ->
  (calls = [] /\ (query s' = query s \/ exists q, query s' = str q)) \/
  (exists i,
      calls = [JS.index fo i] /\ isOpen s = true /\
      query s' = JS.index fo i /\ isOpen s' = false /\
      ((e = KeyDown "Enter" /\ i = focusedOptionIndex s) \/
       (exists n, e = Click (OnOption n) /\ i = Z.of_nat n /\
                  (n < List.length fo)%nat))).
Proof.
  intros F H. rewrite (step_filtered _ _ _ _ F) in H.
  destruct e as [value| |[|n| |]|key]; simpl in H.
  - left. destruct (disabled p); injection H as <- <-;
      [split; auto|].
    unfold handleInputChange, handleToggleDropdown.
    destruct (isOpen s); simpl; split; eauto.
  - left. injection H as <- <-. auto.
  - left. unfold handleClickOutside, handleToggleDropdown in H. simpl in H.
    destruct (disabled p); simpl in H; injection H as <- <-; [auto|].
    destruct (isOpen s); simpl; auto.
  - right. destruct (hasOption _ n) eqn:HO; [|discriminate].
    apply hasOption_open in HO as [O Hn].
    unfold handleOptionClick, handleClickOutside in H. simpl in H.
    rewrite andb_false_r in H. injection H as <- <-.
    exists (Z.of_nat n). simpl. repeat split; auto.
    right. exists n. auto.
  - left. unfold handleClickOutside in H. simpl in H.
    destruct (isOpen s); [|discriminate]. simpl in H.
    injection H as <- <-. auto.
  - left. unfold handleClickOutside in H. simpl in H.
    destruct (isOpen s); simpl in H; injection H as <- <-; simpl; eauto.
  - unfold handleEscapeKey, handleKeyDown in H.
    destruct (String.eqb key "Escape") eqn:Esc.
    + apply String.eqb_eq in Esc. subst key. simpl in H. left.
      destruct (isOpen s); simpl in H; injection H as <- <-; simpl; eauto.
    + simpl in H. destruct (isOpen s) eqn:O;
        [|injection H as <- <-; left; auto].
      destruct (String.eqb key "ArrowDown"
                && (focusedOptionIndex s <? Z.of_nat (List.length fo) - 1)%Z);
        [injection H as <- <-; left; simpl; auto|].
      destruct (String.eqb key "ArrowUp" && (0 <? focusedOptionIndex s)%Z);
        [injection H as <- <-; left; simpl; auto|].
      destruct (String.eqb key "Enter") eqn:En; simpl in H;
        [|injection H as <- <-; left; auto].
      apply String.eqb_eq in En. subst key. injection H as <- <-.
      right. exists (focusedOptionIndex s). simpl. repeat split; auto.
Qed.

(** X8. [onSelect] is called only when Enter is pressed while the dropdown
    is open or an option is clicked, and then exactly once; the transition
    closes the dropdown and stores the argument of the call in [query].  No
    other event (typing, focus, arrow keys, Escape, other clicks, any key
    while closed) calls it. *)
Theorem onSelect_only_on_selection (p : Props) (s s' : State) (e : Event)
  (calls : list value) :
  step p s e = Some (s', calls) ->
  calls = [] \/
  (exists v,
      calls = [v] /\ query s' = v /\ isOpen s' = false /\
      isOpen s = true /\
      (e = KeyDown "Enter" \/ exists n, e = Click (OnOption n))).
Proof.
  intros H. destruct (step_inv _ _ _ _ _ H) as (fo & _ & F & _).
  destruct (step_shape p s s' e calls fo F H)
    as [[C _] | (i & C & O & Q & O' & E)]; [now left|].
  right. exists (JS.index fo i). repeat split; auto.
  destruct E as [[E _] | (n & E & _)]; [now left | right; now exists n].
Qed.

Lemma onSelect_only_on_selection_witness :
  let s := {| query := str "ko"; isOpen := true; focusedOptionIndex := 1 |} in
  let s' := {| query := str "Kollam"; isOpen := false;
               focusedOptionIndex := 1 |} in
  [str "Kollam"] = [] \/
  (exists v,
      [str "Kollam"] = [v] /\ query s' = v /\ isOpen s' = false /\
      isOpen s = true /\
      (KeyDown "Enter" = KeyDown "Enter" \/
       exists n, KeyDown "Enter" = Click (OnOption n))).
Proof.
  intros s s'.
  exact (onSelect_only_on_selection appProps s s' (KeyDown "Enter")
           [str "Kollam"] eq_refl).
Defined.

(** X9. Every string [onSelect] is ever called with is one of the options
    the component was given, from whatever state the events start. *)
Theorem onSelect_strings_are_options (p : Props) (es : list Event)
  (s s' : State) (calls : list value) (opt : string) :
  run p s es = Some (s', calls) ->
  In (str opt) calls ->
  In opt (options p).
Proof.
  revert s calls. induction es as [|e es IH]; intros s calls H I; simpl in H.
  - injection H as <- <-. contradiction.
  - destruct (step p s e) as [[s1 c1]|] eqn:E; [|discriminate].
    destruct (run p s1 es) as [[s2 c2]|] eqn:R; [|discriminate].
    injection H as <- <-. apply in_app_or in I as [I | I].
    + destruct (step_inv _ _ _ _ _ E) as (fo & _ & F & _).
      destruct (step_shape p s s1 e c1 fo F E)
        as [[C _] | (i & C & _)]; subst c1; [contradiction|].
      destruct I as [I | []].
      apply (proj1 (filteredOptions_incl _ _ _ F)).
      exact (index_In fo i opt I).
    + exact (IH s1 c2 R I).
Qed.


Lemma onSelect_strings_are_options_witness :
  In "Kollam" (options appProps).
Proof.
  apply (onSelect_strings_are_options appProps
           [Click OnInput; InputChange "ko"; KeyDown "ArrowDown";
            KeyDown "Enter"]
           initialState
           {| query := str "Kollam"; isOpen := false;
              focusedOptionIndex := 1 |}
           [str "Kollam"] "Kollam" eq_refl).
  simpl. auto.
Defined.

(** ** When the component can crash *)

Lemma run_query_string (p : Props) (es : list Event) (s s' : State)
  (calls : list value) :
  run p s es = Some (s', calls) ->
  (exists q, query s = str q) ->
  ~ In undefined calls ->
  exists q', query s' = str q'.
Proof.
  revert s calls. induction es as [|e es IH]; intros s calls H Q NU;
    simpl in H.
  - injection H as <- <-. exact Q.
  - destruct (step p s e) as [[s1 c1]|] eqn:E; [|discriminate].
    destruct (run p s1 es) as [[s2 c2]|] eqn:R; [|discriminate].
    injection H as <- <-.
    apply (IH s1 c2 R); [|intros I; apply NU, in_or_app; now right].
    destruct (step_inv _ _ _ _ _ E) as (fo & _ & F & _).
    destruct (step_shape p s s1 e c1 fo F E)
      as [[_ [K | K]] | (i & C & _ & K & _)].
    + destruct Q as [q Q]. exists q. congruence.
    + exact K.
    + destruct (JS.index fo i) as [|o] eqn:I.
      * exfalso. apply NU, in_or_app. left. rewrite C. now left.
      * now exists o.
Qed.

(** X10. As long as [onSelect] has not been called with [undefined], the
    component does not crash: after any events from the initial state,
    [query] is a string and the next render returns a view. *)
Theorem no_crash_without_undefined_selection (p : Props) (es : list Event)
  (s : State) (calls : list value) :
  run p initialState es = Some (s, calls) ->
  ~ In undefined calls ->
  (exists q, query s = str q) /\ (exists v, render p s = Ok v).
Proof.
  intros R NU.
  assert (Q : exists q, query s = str q).
  { apply (run_query_string p es initialState s calls R); [|exact NU].
    now exists "". }
  split; [exact Q|]. destruct Q as [q Q].
  eexists. apply render_filtered. rewrite Q. apply filteredOptions_string.
Qed.

Lemma no_crash_without_undefined_selection_witness :
  let s := {| query := str "Kollam"; isOpen := false;
              focusedOptionIndex := 1 |} in
  (exists q, query s = str q) /\ (exists v, render appProps s = Ok v).
Proof.
  intros s.
  apply (no_crash_without_undefined_selection appProps
           [Click OnInput; InputChange "ko"; KeyDown "ArrowDown";
            KeyDown "Enter"]
           s [str "Kollam"] eq_refl).
  simpl. intros [H | []]. discriminate.
Defined.

(** X11. Enter while the dropdown is open always closes it and calls
    [onSelect] once, with the element of the filtered list at the
    highlighted index; that element is [undefined] exactly when the index
    lies outside the filtered list. *)
Theorem enter_commits_indexed_element (p : Props) (s : State)
  (fo : list string) :
  filteredOptions (options p) (query s) = Ok fo ->
  isOpen s = true ->
  step p s (KeyDown "Enter") =
  Some ({| query := JS.index fo (focusedOptionIndex s); isOpen := false;
           focusedOptionIndex := focusedOptionIndex s |},
        [JS.index fo (focusedOptionIndex s)]) /\
  (JS.index fo (focusedOptionIndex s) = undefined <->
   ~ (0 <= focusedOptionIndex s < Z.of_nat (List.length fo))%Z).
Proof.
  intros F O. split; [|apply index_undefined_iff].
  rewrite (step_filtered _ _ _ _ F).
  unfold dispatch, handleEscapeKey, handleKeyDown. simpl.
  rewrite O. reflexivity.
Qed.

Lemma enter_commits_indexed_element_witness :
  let s := {| query := str "ko"; isOpen := true; focusedOptionIndex := 5 |} in
  let fo := ["Kozhikode"; "Kollam"; "Kottayam"] in
  step appProps s (KeyDown "Enter") =
  Some ({| query := JS.index fo 5; isOpen := false;
           focusedOptionIndex := 5 |}, [JS.index fo 5]) /\
  (JS.index fo 5 = undefined <->
   ~ (0 <= 5 < Z.of_nat (List.length fo))%Z).
Proof.
  intros s fo.
  exact (enter_commits_indexed_element appProps s fo eq_refl eq_refl).
Defined.

(** ** The highlighted index and the option list *)


Lemma indexWithinOptions_step (p : Props) (s s' : State) (e : Event)
  (calls : list value) :
  indexWithinOptions p s ->
  step p s e = Some (s', calls) ->
  indexWithinOptions p s'.
Proof.
  intros I H. destruct (step_inv _ _ _ _ _ H) as (fo & _ & F & _).
  pose proof (proj2 (filteredOptions_incl _ _ _ F)) as Len.
  rewrite (step_filtered _ _ _ _ F) in H.
  unfold indexWithinOptions in *.
  destruct e as [value| |[|n| |]|key]; simpl in H.
  - destruct (disabled p); injection H as <- _; [exact I|].
    unfold handleInputChange, handleToggleDropdown.
    destruct (isOpen s); simpl; lia.
  - injection H as <- _. exact I.
  - unfold handleClickOutside, handleToggleDropdown in H. simpl in H.
    destruct (disabled p); simpl in H; injection H as <- _; [exact I|].
    destruct (isOpen s); simpl; [lia | exact I].
  - destruct (hasOption _ n) eqn:HO; [|discriminate].
    apply hasOption_open in HO as [_ Hn].
    unfold handleOptionClick, handleClickOutside in H. simpl in H.
    rewrite andb_false_r in H. injection H as <- _. simpl. lia.
  - unfold handleClickOutside in H. simpl in H.
    destruct (isOpen s); [|discriminate]. simpl in H.
    injection H as <- _. exact I.
  - unfold handleClickOutside in H. simpl in H.
    destruct (isOpen s); simpl in H; injection H as <- _; simpl;
      [lia | exact I].
  - unfold handleEscapeKey, handleKeyDown in H.
    destruct (String.eqb key "Escape") eqn:Esc.
    + apply String.eqb_eq in Esc. subst key. simpl in H.
      destruct (isOpen s); simpl in H; injection H as <- _; simpl; lia.
    + simpl in H. destruct (isOpen s); [|injection H as <- _; exact I].
      destruct (String.eqb key "ArrowDown"
                && (focusedOptionIndex s <? Z.of_nat (List.length fo) - 1)%Z)
        eqn:Down.
      { apply andb_true_iff in Down as [_ Down]. apply Z.ltb_lt in Down.
        injection H as <- _. simpl. lia. }
      destruct (String.eqb key "ArrowUp" && (0 <? focusedOptionIndex s)%Z)
        eqn:Up.
      { apply andb_true_iff in Up as [_ Up]. apply Z.ltb_lt in Up.
        injection H as <- _. simpl. lia. }
      destruct (String.eqb key "Enter" && notNull (focusedOptionIndex s));
        injection H as <- _; simpl; exact I.
Qed.

Lemma indexWithinOptions_run (p : Props) (es : list Event) (s s' : State)
  (calls : list value) :
  indexWithinOptions p s ->
  run p s es = Some (s', calls) ->
  indexWithinOptions p s'.
Proof.
  revert s calls. induction es as [|e es IH]; intros s calls I H; simpl in H.
  - injection H as <- _. exact I.
  - destruct (step p s e) as [[s1 c1]|] eqn:E; [|discriminate].
    destruct (run p s1 es) as [[s2 c2]|] eqn:R; [|discriminate].
    injection H as <- _.
    exact (IH s1 c2 (indexWithinOptions_step p s s1 e c1 I E) R).
Qed.

(** X12. In every reachable state, selections included, the highlighted
    index is at least 0 and below the length of the whole option list (or
    is 0 when there is no option): it can fall outside the filtered list,
    never outside the list the component was given. *)
Theorem index_within_options (p : Props) (s : State) :
  reachable p s -> indexWithinOptions p s.
Proof.
  intros (es & calls & R).
  apply (indexWithinOptions_run p es initialState s calls); [|exact R].
  unfold indexWithinOptions. simpl. lia.
Qed.

Lemma index_within_options_witness :
  indexWithinOptions (withOptions ["A"; "B"; "C"])
    {| query := str "C"; isOpen := true; focusedOptionIndex := 2 |}.
Proof.
  apply index_within_options.
  exists [Click OnInput; Click (OnOption 2); Click OnInput], [str "C"].
  reflexivity.
Defined.

(** ** Keys and clicks in the closed state *)

(** X13. Escape does not look at [isOpen]: in every rendered state, open or
    closed, it brings the component back to its initial state (a committed
    or typed [query] is cleared) without calling [onSelect].  A click
    outside, in contrast, does nothing while the dropdown is closed. *)
Theorem escape_resets_even_when_closed (p : Props) (s : State)
  (fo : list string) :
  filteredOptions (options p) (query s) = Ok fo ->
  step p s (KeyDown "Escape") = Some (initialState, []) /\
  (isOpen s = false -> step p s (Click Elsewhere) = Some (s, [])).
Proof.
  intros F. rewrite !(step_filtered _ _ _ _ F).
  unfold dispatch, handleEscapeKey, handleKeyDown, handleClickOutside.
  simpl. split.
  - destruct (isOpen s); reflexivity.
  - intros ->. reflexivity.
Qed.

Lemma escape_resets_even_when_closed_witness :
  let s := {| query := str "Kollam"; isOpen := false;
              focusedOptionIndex := 1 |} in
  step appProps s (KeyDown "Escape") = Some (initialState, []) /\
  step appProps s (Click Elsewhere) = Some (s, []).
Proof.
  intros s.
  destruct (escape_resets_even_when_closed appProps s ["Kollam"] eq_refl)
    as [E C].
  split; [exact E | exact (C eq_refl)].
Defined.

(** X14. A key press changes nothing and calls nothing unless the key is
    Escape, or the dropdown is open and the key is ArrowDown, ArrowUp or
    Enter: no key opens a closed dropdown or selects from it, and typed
    characters pass the key handlers untouched. *)
Theorem other_keys_do_nothing (p : Props) (s : State) (fo : list string)
  (key : string) :
  filteredOptions (options p) (query s) = Ok fo ->
  key <> "Escape" ->
  isOpen s = false \/
  (key <> "ArrowDown" /\ key <> "ArrowUp" /\ key <> "Enter") ->
  step p s (KeyDown key) = Some (s, []).
Proof.
  intros F NE H. rewrite (step_filtered _ _ _ _ F).
  unfold dispatch, handleEscapeKey, handleKeyDown.
  apply String.eqb_neq in NE. rewrite NE. simpl.
  destruct H as [-> | (D & U & E)]; [reflexivity|].
  apply String.eqb_neq in D, U, E. rewrite D, U, E. simpl.
  now destruct (isOpen s).
Qed.

Lemma other_keys_do_nothing_witness :
  let s := {| query := str "Kollam"; isOpen := false;
              focusedOptionIndex := 0 |} in
  step appProps s (KeyDown "Enter") = Some (s, []).
Proof.
  intros s.
  exact (other_keys_do_nothing appProps s ["Kollam"] "Enter" eq_refl
           ltac:(discriminate) (or_introl eq_refl)).
Defined.

(** ** Clicking the input twice *)

(** X15. Two clicks on the enabled input, from any rendered state, leave
    [query] and [isOpen] as they were and the highlighted index at 0, and
    call nothing: the toggle is an involution on [isOpen] that never
    touches [query]. *)
Theorem double_toggle (p : Props) (s : State) (fo : list string) :
  filteredOptions (options p) (query s) = Ok fo ->
  disabled p = false ->
  run p s [Click OnInput; Click OnInput] =
  Some ({| query := query s; isOpen := isOpen s; focusedOptionIndex := 0 |},
        []).
Proof.
  intros F D. simpl run.
  assert (S1 : step p s (Click OnInput) =
               Some ({| query := query s; isOpen := negb (isOpen s);
                        focusedOptionIndex :=
                          if isOpen s then 0%Z else focusedOptionIndex s |},
                     [])).
  { rewrite (step_filtered _ _ _ _ F).
    unfold dispatch, handleClickOutside, handleToggleDropdown. simpl.
    rewrite D. destruct (isOpen s); reflexivity. }
  rewrite S1.
  set (s1 := {| query := query s; isOpen := negb (isOpen s);
                focusedOptionIndex :=
                  if isOpen s then 0%Z else focusedOptionIndex s |}).
  assert (F1 : filteredOptions (options p) (query s1) = Ok fo) by exact F.
  rewrite (step_filtered p s1 fo _ F1).
  unfold dispatch, handleClickOutside, handleToggleDropdown, s1. simpl.
  rewrite D. destruct (isOpen s); reflexivity.
Qed.

Lemma double_toggle_witness :
  run appProps
    {| query := str "ko"; isOpen := true; focusedOptionIndex := 2 |}
    [Click OnInput; Click OnInput] =
  Some ({| query := str "ko"; isOpen := true; focusedOptionIndex := 0 |}, []).
Proof.
  exact (double_toggle appProps
           {| query := str "ko"; isOpen := true; focusedOptionIndex := 2 |}
           ["Kozhikode"; "Kollam"; "Kottayam"] eq_refl eq_refl).
Defined.

(** ** Focusing the input *)

(** X16. The handlers call [inputRef.current.focus()] exactly on the
    events that open a closed dropdown (a click on the input or typing into
    it), and on no other event. *)
Theorem focus_iff_opening (p : Props) (s : State) (fo : list string)
  (e : Event) (us : list Update) :
  dispatch s (viewOf p s fo) e = Some us ->
  (In focusInput us <-> isOpen s = false /\ isOpen (commit s us) = true).
Proof.
  intros H.
  destruct e as [value| |[|n| |]|key]; simpl in H.
  - injection H as <-. unfold handleInputChange, handleToggleDropdown.
    destruct (disabled p), (isOpen s) eqn:O; simpl; rewrite ?O;
      intuition (try discriminate; try congruence).
  - injection H as <-. simpl. intuition congruence.
  - injection H as <-. unfold handleClickOutside, handleToggleDropdown.
    destruct (disabled p), (isOpen s) eqn:O; simpl; rewrite ?O;
      intuition (try discriminate; try congruence).
  - destruct (hasOption _ n); [|discriminate]. injection H as <-.
    unfold handleOptionClick, handleClickOutside. simpl.
    rewrite andb_false_r. simpl. intuition (try discriminate; try congruence).
  - unfold handleClickOutside in H. simpl in H.
    destruct (isOpen s) eqn:O; [|discriminate]. injection H as <-.
    simpl. intuition congruence.
  - injection H as <-. unfold handleClickOutside.
    destruct (isOpen s) eqn:O; simpl; rewrite ?O;
      intuition (try discriminate; try congruence).
  - injection H as <-. unfold handleEscapeKey, handleKeyDown.
    destruct (String.eqb key "Escape"), (isOpen s) eqn:O; simpl; rewrite ?O;
      try solve [intuition (try discriminate; try congruence)];
      destruct (String.eqb key "ArrowDown"
                && (focusedOptionIndex s <? Z.of_nat (List.length fo) - 1)%Z);
      simpl; rewrite ?O;
      try solve [intuition (try discriminate; try congruence)];
      destruct (String.eqb key "ArrowUp" && (0 <? focusedOptionIndex s)%Z);
      simpl; rewrite ?O;
      try solve [intuition (try discriminate; try congruence)];
      destruct (String.eqb key "Enter"); simpl; rewrite ?O;
      intuition (try discriminate; try congruence).
Qed.

Lemma focus_iff_opening_witness :
  In focusInput
    [setIsOpen true; focusInput; setQuery (str "k");
     setFocusedOptionIndex (fun _ => 0%Z)] <->
  isOpen initialState = false /\
  isOpen (commit initialState
            [setIsOpen true; focusInput; setQuery (str "k");
             setFocusedOptionIndex (fun _ => 0%Z)]) = true.
Proof.
  exact (focus_iff_opening appProps initialState (options appProps)
           (InputChange "k") _ eq_refl).
Defined.

(** ** The scroll effect *)

(** X17. The scroll effect runs after the first render, and after a later
    render only if [isOpen] or [focusedOptionIndex] differs from the
    previous render.  After a render that returned a view it never
    dereferences a missing panel, and it scrolls an option element into
    view exactly when it runs, the dropdown is open and the highlighted
    index is a position of the filtered list; the element is the one at
    that position.  When neither dependency changed (typing while open at
    index 0), with the notfound text shown, or with the index outside the
    filtered list, nothing is scrolled. *)
Theorem scroll_targets_highlighted (p : Props) (prev : option State)
  (s : State) (v : View) :
  render p s = Ok v ->
  exists r,
    scrollEffect prev s v = Ok r /\
    (forall i,
        r = Some i <->
        scrollDepsChanged prev s = true /\
        isOpen s = true /\ focusedOptionIndex s = Z.of_nat i /\
        (i < List.length (computedOptions v))%nat).
Proof.
  unfold render.
  destruct (filteredOptions (options p) (query s)) as [fo|]; simpl;
    [|discriminate].
  intros [= <-]. unfold scrollEffect.
  destruct (scrollDepsChanged prev s).
  2:{ eexists. split; [reflexivity|]. intros i.
      split; [discriminate | intros (D & _); discriminate]. }
  unfold scrollEffectBody, viewOf. simpl.
  destruct (isOpen s); simpl.
  - destruct (Nat.eqb (List.length fo) 0
              && negb (strict_eq (query s) (str ""))) eqn:NF; simpl.
    + apply andb_true_iff in NF as [NF _]. apply Nat.eqb_eq in NF.
      eexists. split; [reflexivity|]. intros i.
      split; [discriminate | intros (_ & _ & _ & L); lia].
    + destruct (Z.leb_spec 0 (focusedOptionIndex s)),
               (Z.ltb_spec (focusedOptionIndex s)
                  (Z.of_nat (List.length fo)));
        simpl; eexists; (split; [reflexivity|]); intros i;
        (split; [intros [= <-] | intros (_ & _ & E & L)]);
        try lia; try (repeat split; lia).
      f_equal. lia.
  - eexists. split; [reflexivity|]. intros i.
    split; [discriminate | intros (_ & O & _); discriminate].
Qed.

Lemma scroll_targets_highlighted_witness :
  let s0 := {| query := str "ko"; isOpen := true; focusedOptionIndex := 1 |} in
  let s := {| query := str "ko"; isOpen := true; focusedOptionIndex := 2 |} in
  exists r,
    scrollEffect (Some s0) s
      (viewOf appProps s ["Kozhikode"; "Kollam"; "Kottayam"]) = Ok r /\
    (forall i,
        r = Some i <->
        scrollDepsChanged (Some s0) s = true /\
        isOpen s = true /\ focusedOptionIndex s = Z.of_nat i /\
        (i < 3)%nat).
Proof.
  intros s0 s.
  exact (scroll_targets_highlighted appProps (Some s0) s _ eq_refl).
Defined.

(** Typing while the dropdown is open at index 0 changes neither
    dependency: the effect does not run. *)
Example scroll_skipped_when_typing :
  let s0 := {| query := str "k"; isOpen := true; focusedOptionIndex := 0 |} in
  step appProps s0 (InputChange "ko") =
  Some ({| query := str "ko"; isOpen := true; focusedOptionIndex := 0 |}, [])
  /\
  scrollEffect (Some s0)
    {| query := str "ko"; isOpen := true; focusedOptionIndex := 0 |}
    (viewOf appProps
       {| query := str "ko"; isOpen := true; focusedOptionIndex := 0 |}
       ["Kozhikode"; "Kollam"; "Kottayam"]) = Ok None.
Proof. split; reflexivity. Qed.

(** ** The window listeners *)

Lemma Listener_eqb_render (a b : Listener) :
  ofRender a <> ofRender b -> Listener_eqb a b = false.
Proof.
  intros H. unfold Listener_eqb. apply Nat.eqb_neq in H. rewrite H.
  apply andb_false_r.
Qed.

Lemma existsb_other_render (l : Listener) (w : list Listener) :
  (forall x, In x w -> ofRender x <> ofRender l) ->
  existsb (Listener_eqb l) w = false.
Proof.
  induction w as [|x w IH]; simpl; intros H; [reflexivity|].
  rewrite Listener_eqb_render by (intros E; apply (H x); auto).
  apply IH. auto.
Qed.

Lemma remove_other_render (l : Listener) (w : list Listener) :
  (forall x, In x w -> ofRender x <> ofRender l) ->
  removeEventListener w l = w.
Proof.
  intros H. apply filter_all. intros x I.
  rewrite Listener_eqb_render; [reflexivity|].
  intros E. apply (H x I). auto.
Qed.

(** On a window that carries none of its functions, the effect appends its
    three listeners, in the order of the source. *)
Lemma listenersEffect_fresh (n : nat) (w : list Listener) :
  (forall x, In x w -> ofRender x <> n) ->
  listenersEffect n w = w ++ ownListeners n.
Proof.
  intros H. unfold listenersEffect, addEventListener.
  rewrite (existsb_other_render _ w) by exact H.
  rewrite existsb_app, (existsb_other_render _ w) by exact H. simpl.
  rewrite !existsb_app, (existsb_other_render _ w) by exact H. simpl.
  now rewrite <- !app_assoc.
Qed.

Lemma remove_app (w l : list Listener) (a : Listener) :
  removeEventListener (w ++ l) a =
  removeEventListener w a ++ removeEventListener l a.
Proof. apply filter_app. Qed.

Lemma remove_click_of_own (n : nat) :
  removeEventListener (ownListeners n)
    {| onType := click; fn := ClickOutsideFn; ofRender := n |} =
  [ {| onType := keydown; fn := EscapeKeyFn; ofRender := n |};
    {| onType := keydown; fn := KeyDownFn; ofRender := n |} ].
Proof.
  unfold removeEventListener, Listener_eqb. simpl.
  now rewrite Nat.eqb_refl.
Qed.

Lemma remove_escape_of_rest (n : nat) :
  removeEventListener
    [ {| onType := keydown; fn := EscapeKeyFn; ofRender := n |};
      {| onType := keydown; fn := KeyDownFn; ofRender := n |} ]
    {| onType := keydown; fn := EscapeKeyFn; ofRender := n |} =
  [ {| onType := keydown; fn := KeyDownFn; ofRender := n |} ].
Proof.
  unfold removeEventListener, Listener_eqb. simpl.
  now rewrite Nat.eqb_refl.
Qed.

Lemma remove_keydown_of_rest (n : nat) :
  removeEventListener
    [ {| onType := keydown; fn := KeyDownFn; ofRender := n |} ]
    {| onType := keydown; fn := KeyDownFn; ofRender := n |} = [].
Proof.
  unfold removeEventListener, Listener_eqb. simpl.
  now rewrite Nat.eqb_refl.
Qed.

(** The cleanup removes exactly them. *)
Lemma listenersCleanup_own (n : nat) (w : list Listener) :
  (forall x, In x w -> ofRender x <> n) ->
  listenersCleanup n (w ++ ownListeners n) = w.
Proof.
  intros H. unfold listenersCleanup. cbv zeta.
  rewrite remove_app, (remove_other_render _ w), remove_click_of_own by exact H.
  rewrite remove_app, (remove_other_render _ w), remove_escape_of_rest by exact H.
  rewrite remove_app, (remove_other_render _ w), remove_keydown_of_rest by exact H.
  apply app_nil_r.
Qed.

Lemma last_nonempty {A : Type} (l : list A) (x d d' : A) :
  last (x :: l) d = last (x :: l) d'.
Proof.
  revert x. induction l as [|y l IH]; intros x; [reflexivity|].
  exact (IH y).
Qed.

Lemma last_In {A : Type} (l : list A) (x d : A) : In (last (x :: l) d) (x :: l).
Proof.
  revert x. induction l as [|y l IH]; intros x; [now left|].
  right. exact (IH y).
Qed.

Lemma effectRuns_registered (w : list Listener) (m : nat) (rs : list nat) :
  (forall x, In x w -> foreign (m :: rs) x) ->
  effectRuns (w ++ ownListeners m) (Some m) rs =
  (w ++ ownListeners (last rs m), Some (last rs m)).
Proof.
  revert m. induction rs as [|n rs IH]; intros m H; [reflexivity|].
  cbn [effectRuns].
  rewrite listenersCleanup_own
    by (intros x I E; apply (H x I); left; auto).
  rewrite listenersEffect_fresh
    by (intros x I E; apply (H x I); right; left; auto).
  rewrite IH.
  - destruct rs as [|x rs]; [reflexivity|].
    now rewrite (last_nonempty rs x n m).
  - intros x I [E | E]; apply (H x I); right; [left | right]; auto.
Qed.

(** X18. However many renders re-run the effect, the window carries, beside
    the listeners of other code and after them, exactly the three listeners
    of the render that ran the effect last (the click listener, then
    [handleEscapeKey], then [handleKeyDown]); unmounting leaves the window's
    listeners as they were before the component mounted. *)
Theorem listeners_follow_renders (w : list Listener) (r : nat)
  (rs : list nat) :
  (forall x, In x w -> foreign (r :: rs) x) ->
  effectRuns w None (r :: rs) =
  (w ++ ownListeners (last rs r), Some (last rs r)) /\
  unmount (effectRuns w None (r :: rs)) = w.
Proof.
  intros H.
  assert (E : effectRuns w None (r :: rs) =
              (w ++ ownListeners (last rs r), Some (last rs r))).
  { cbn [effectRuns].
    rewrite listenersEffect_fresh
      by (intros x I E; apply (H x I); left; auto).
    now apply effectRuns_registered. }
  split; [exact E|]. rewrite E. unfold unmount. simpl fst. simpl snd.
  apply listenersCleanup_own. intros x I E'. apply (H x I).
  rewrite E'. destruct rs as [|n rs]; [left; reflexivity|].
  right. apply last_In.
Qed.

Lemma listeners_follow_renders_witness :
  let other := {| onType := keydown; fn := KeyDownFn; ofRender := 7 |} in
  effectRuns [other] None [0; 1; 2]%nat =
  ([other] ++ ownListeners 2, Some 2%nat) /\
  unmount (effectRuns [other] None [0; 1; 2]%nat) = [other].
Proof.
  intros other.
  apply (listeners_follow_renders [other] 0%nat [1; 2]%nat).
  intros x [<- | []]. unfold foreign. simpl. lia.
Defined.

(** ** Repeated arrow keys *)

Lemma arrow_step (p : Props) (q : value) (i : Z) (fo : list string) :
  filteredOptions (options p) q = Ok fo ->
  step p {| query := q; isOpen := true; focusedOptionIndex := i |}
    (KeyDown "ArrowDown") =
  Some ({| query := q; isOpen := true;
           focusedOptionIndex :=
             if (i <? Z.of_nat (List.length fo) - 1)%Z
             then (i + 1)%Z else i |}, []) /\
  step p {| query := q; isOpen := true; focusedOptionIndex := i |}
    (KeyDown "ArrowUp") =
  Some ({| query := q; isOpen := true;
           focusedOptionIndex := if (0 <? i)%Z then (i - 1)%Z else i |}, []).
Proof.
  intros F.
  rewrite !(step_filtered p
              {| query := q; isOpen := true; focusedOptionIndex := i |}
              fo _ F).
  unfold dispatch, handleEscapeKey, handleKeyDown. simpl. split.
  - destruct (i <? Z.of_nat (List.length fo) - 1)%Z; reflexivity.
  - destruct (0 <? i)%Z; reflexivity.
Qed.

(** X19. Pressing ArrowDown [n] times in an open dropdown moves the
    highlighted index [n] positions down but not past the last position of
    the filtered list, and pressing ArrowUp [n] times moves it [n]
    positions up but not past 0; an index that is already past the end
    (or not above 0) stays where it is.  Nothing else changes and
    [onSelect] is not called. *)
Theorem repeated_arrows_clamp (p : Props) (q : value) (i : Z)
  (fo : list string) (n : nat) :
  filteredOptions (options p) q = Ok fo ->
  run p {| query := q; isOpen := true; focusedOptionIndex := i |}
    (repeat (KeyDown "ArrowDown") n) =
  Some ({| query := q; isOpen := true;
           focusedOptionIndex :=
             Z.max i (Z.min (i + Z.of_nat n)
                        (Z.of_nat (List.length fo) - 1)) |}, []) /\
  run p {| query := q; isOpen := true; focusedOptionIndex := i |}
    (repeat (KeyDown "ArrowUp") n) =
  Some ({| query := q; isOpen := true;
           focusedOptionIndex := Z.min i (Z.max (i - Z.of_nat n) 0) |}, []).
Proof.
  intros F. split; revert i; induction n as [|n IH]; intros i.
  - simpl repeat. simpl run. do 3 f_equal. lia.
  - simpl repeat. cbn [run].
    rewrite (proj1 (arrow_step p q i fo F)), IH. simpl.
    do 3 f_equal.
    destruct (Z.ltb_spec i (Z.of_nat (List.length fo) - 1)); lia.
  - simpl repeat. simpl run. do 3 f_equal. lia.
  - simpl repeat. cbn [run].
    rewrite (proj2 (arrow_step p q i fo F)), IH. simpl.
    do 3 f_equal.
    destruct (Z.ltb_spec 0 i); lia.
Qed.

Lemma repeated_arrows_clamp_witness :
  let s := {| query := str "ko"; isOpen := true; focusedOptionIndex := 1 |} in
  run appProps s (repeat (KeyDown "ArrowDown") 5) =
  Some ({| query := str "ko"; isOpen := true; focusedOptionIndex := 2 |}, [])
  /\
  run appProps s (repeat (KeyDown "ArrowUp") 5) =
  Some ({| query := str "ko"; isOpen := true; focusedOptionIndex := 0 |}, []).
Proof.
  intros s.
  exact (repeated_arrows_clamp appProps (str "ko") 1
           ["Kozhikode"; "Kollam"; "Kottayam"] 5 eq_refl).
Defined.

(** ** Opening again after a selection *)

(** X20. After an option of an open dropdown is clicked, a click on the
    (enabled) input opens the dropdown again with the committed text as
    [query], and the filtered list then contains the committed option: the
    panel lists options and does not show the notfound text.  The
    highlighted index is still the position that was clicked. *)
Theorem reopen_after_selection (p : Props) (s : State) (fo : list string)
  (i : nat) :
  filteredOptions (options p) (query s) = Ok fo ->
  disabled p = false ->
  isOpen s = true ->
  fo <> [] ->
  (i < List.length fo)%nat ->
  exists opt fo',
    nth_error fo i = Some opt /\
    run p s [Click (OnOption i); Click OnInput] =
    Some ({| query := str opt; isOpen := true;
             focusedOptionIndex := Z.of_nat i |}, [str opt]) /\
    filteredOptions (options p) (str opt) = Ok fo' /\
    In opt fo' /\
    panel (viewOf p {| query := str opt; isOpen := true;
                       focusedOptionIndex := Z.of_nat i |} fo') =
    Some (OptionItems fo' (Z.of_nat i)).
Proof.
  intros F D O NE Hi.
  destruct (nth_error fo i) as [opt|] eqn:N;
    [|apply nth_error_None in N; lia].
  assert (InL : In opt (options p)).
  { apply (proj1 (filteredOptions_incl _ _ _ F)).
    exact (nth_error_In _ _ N). }
  assert (Listed : exists fo',
             filteredOptions (options p) (str opt) = Ok fo' /\ In opt fo').
  { rewrite filteredOptions_string. eexists. split; [reflexivity|].
    destruct (String.eqb opt ""); [exact InL|].
    apply filter_In. split; [exact InL|].
    apply includes_iff, Contains_refl. }
  destruct Listed as (fo' & F' & I').
  exists opt, fo'. split; [reflexivity|]. split; [|split; [exact F'|]].
  - cbn [run]. rewrite (step_filtered _ _ _ _ F).
    unfold dispatch at 1, hasOption. simpl.
    rewrite O, (nonempty_length _ _ NE). simpl.
    apply Nat.ltb_lt in Hi. rewrite Hi.
    unfold handleOptionClick, handleClickOutside.
    rewrite (index_nth _ _ _ N). simpl. rewrite andb_false_r. simpl.
    rewrite (step_filtered p {| query := str opt; isOpen := false;
                                focusedOptionIndex := Z.of_nat i |}
               fo' _ F').
    unfold dispatch, handleToggleDropdown, handleClickOutside. simpl.
    rewrite D. reflexivity.
  - split; [exact I'|]. unfold viewOf. simpl.
    destruct fo' as [|x fo']; [contradiction | reflexivity].
Qed.

Lemma reopen_after_selection_witness :
  let s := {| query := str ""; isOpen := true; focusedOptionIndex := 0 |} in
  exists opt fo',
    nth_error (options appProps) 4 = Some opt /\
    run appProps s [Click (OnOption 4); Click OnInput] =
    Some ({| query := str opt; isOpen := true;
             focusedOptionIndex := Z.of_nat 4 |}, [str opt]) /\
    filteredOptions (options appProps) (str opt) = Ok fo' /\
    In opt fo' /\
    panel (viewOf appProps {| query := str opt; isOpen := true;
                              focusedOptionIndex := Z.of_nat 4 |} fo') =
    Some (OptionItems fo' (Z.of_nat 4)).
Proof.
  intros s.
  apply (reopen_after_selection appProps s (options appProps) 4
           eq_refl eq_refl eq_refl).
  - discriminate.
  - simpl. lia.
Defined.

(** ** The index resets on runs without a selection *)

(** A step that calls no [onSelect] keeps "closed implies index 0", and
    leaves the index at 0 whenever it changes [isOpen] or [query]. *)
Lemma closed_index_zero_step (p : Props) (s s' : State) (e : Event) :
  (isOpen s = false -> focusedOptionIndex s = 0%Z) ->
  step p s e = Some (s', []) ->
  (isOpen s' = false -> focusedOptionIndex s' = 0%Z) /\
  (isOpen s' <> isOpen s \/ query s' <> query s ->
   focusedOptionIndex s' = 0%Z).
Proof.
  intros I H. destruct (step_inv _ _ _ _ _ H) as (fo & _ & F & _).
  rewrite (step_filtered _ _ _ _ F) in H.
  assert (Same : s' = s ->
                 (isOpen s' = false -> focusedOptionIndex s' = 0%Z) /\
                 (isOpen s' <> isOpen s \/ query s' <> query s ->
                  focusedOptionIndex s' = 0%Z)).
  { intros ->. split; [exact I | intros [N | N]; contradiction]. }
  destruct e as [value| |[|n| |]|key]; simpl in H.
  - destruct (disabled p); [injection H as <-; now apply Same|].
    unfold handleInputChange, handleToggleDropdown in H.
    destruct (isOpen s); simpl in H; injection H as <-; simpl; auto.
  - injection H as <-. now apply Same.
  - unfold handleClickOutside, handleToggleDropdown in H. simpl in H.
    destruct (disabled p); simpl in H; [injection H as <-; now apply Same|].
    destruct (isOpen s) eqn:O; simpl in H; injection H as <-; simpl; auto.
  - destruct (hasOption _ n); discriminate.
  - unfold handleClickOutside in H. simpl in H.
    destruct (isOpen s); [|discriminate]. simpl in H.
    injection H as <-. now apply Same.
  - unfold handleClickOutside in H. simpl in H.
    destruct (isOpen s) eqn:O; simpl in H; injection H as <-;
      [simpl; auto | now apply Same].
  - unfold handleEscapeKey, handleKeyDown in H.
    destruct (String.eqb key "Escape") eqn:Esc.
    + apply String.eqb_eq in Esc. subst key. simpl in H.
      destruct (isOpen s); simpl in H; injection H as <-; simpl; auto.
    + simpl in H. destruct (isOpen s) eqn:O;
        [|injection H as <-; now apply Same].
      destruct (String.eqb key "ArrowDown"
                && (focusedOptionIndex s <? Z.of_nat (List.length fo) - 1)%Z).
      { injection H as <-. simpl. rewrite O.
        split; [discriminate | intros [N | N]; contradiction]. }
      destruct (String.eqb key "ArrowUp" && (0 <? focusedOptionIndex s)%Z).
      { injection H as <-. simpl. rewrite O.
        split; [discriminate | intros [N | N]; contradiction]. }
      destruct (String.eqb key "Enter"); [discriminate|].
      injection H as <-. now apply Same.
Qed.

Lemma closed_index_zero_run (p : Props) (es : list Event) (s s' : State) :
  (isOpen s = false -> focusedOptionIndex s = 0%Z) ->
  run p s es = Some (s', []) ->
  isOpen s' = false -> focusedOptionIndex s' = 0%Z.
Proof.
  revert s. induction es as [|e es IH]; intros s I H; simpl in H.
  - injection H as <-. exact I.
  - destruct (step p s e) as [[s1 c1]|] eqn:E; [|discriminate].
    destruct (run p s1 es) as [[s2 c2]|] eqn:R; [|discriminate].
    injection H as <- H. apply app_eq_nil in H as [-> ->].
    exact (IH s1 (proj1 (closed_index_zero_step p s s1 e I E)) R).
Qed.

(** X23. As long as no selection has been made, the resets are complete:
    after events from the initial state that never called [onSelect],
    every further event without an [onSelect] call that opens or closes
    the dropdown, or changes [query] (and with it the filtered list),
    leaves the highlighted index at 0. *)
Theorem index_zero_without_selection (p : Props) (es : list Event)
  (s s' : State) (e : Event) :
  run p initialState es = Some (s, []) ->
  step p s e = Some (s', []) ->
  isOpen s' <> isOpen s \/ query s' <> query s ->
  focusedOptionIndex s' = 0%Z.
Proof.
  intros R H.
  apply (closed_index_zero_step p s s' e); [|exact H].
  apply (closed_index_zero_run p es initialState s); [|exact R].
  reflexivity.
Qed.

Lemma index_zero_without_selection_witness :
  focusedOptionIndex
    {| query := str "ko"; isOpen := false; focusedOptionIndex := 0 |} = 0%Z.
Proof.
  apply (index_zero_without_selection appProps
           [Click OnInput; InputChange "ko"; KeyDown "ArrowDown"]
           {| query := str "ko"; isOpen := true; focusedOptionIndex := 1 |}
           {| query := str "ko"; isOpen := false; focusedOptionIndex := 0 |}
           (Click OnInput) eq_refl eq_refl).
  left. discriminate.
Defined.
